(** * periodic-gym: biomechanical analysis and repetition detection

    A shallow embedding of the pose-analysis engine of the repository:

    - [Strings]      : the two string built-ins the code relies on
                       ([toLowerCase], [includes]);
    - [PoseAnalysis] : the hook [usePoseAnalysis] -- temporal smoother
                       ([smoothMetric]), threshold table and the repetition
                       state machine ([detectRep]) with the part of [analyze]
                       that counts repetitions;
    - [Geometry]     : the library [lib/geometry] -- vector primitives,
                       [calculateAngle], [pointToLineDistance], the three
                       exercise analyzers and the dispatcher [analyzeExercise];
    - [SmootherFacts], [RepetitionFacts], [GeometryFacts], [AnalyzerFacts] :
                       the properties proved of these definitions.

    Number model.  JavaScript numbers are IEEE doubles.  The hook is embedded
    over exact rationals [Q] (every operation it performs is rational, and
    the definitions evaluate), wall-clock times ([Date.now()]) are integers
    [Z] in milliseconds.  The geometry library needs square roots and inverse
    trigonometric functions and is embedded over the real numbers [R];
    operations that yield NaN or an infinity in JavaScript on real arguments
    (division by zero, [Math.acos] outside [-1,1], [Math.sqrt] of a negative
    number) are partial and return [None].  Rounding error, overflow and
    underflow of doubles are not modelled. *)

From Stdlib Require Import ZArith QArith Qpower Reals Machin Zfloor.
From Stdlib Require Import Lqa Lra Lia.
From Stdlib Require Import Qround String Ascii List DecimalString.
From stdpp Require Import base option strings list gmap.
Import ListNotations.

(* ================================================================== *)
(** * Shared data model *)
(* ================================================================== *)

(** [type RepState = 'UP' | 'DOWN' | 'TRANSITIONING'] *)
Inductive RepState := UP | DOWN | TRANSITIONING.

(** [phase: 'eccentric' | 'concentric' | 'isometric' | 'rest'] *)
Inductive Phase := eccentric | concentric | isometric | rest.

(** [interface BiomechanicalAnalysis], over the number type [num] of the
    module that uses it ([R] where it is produced, [Q] where the hook
    consumes it).  [metrics] is the JavaScript object used as a map from
    metric names to numbers. *)
Record BiomechanicalAnalysis (num : Type) := mkAnalysis {
  feedback : list string;
  metrics : gmap string num;
  phase : Phase;
  isValid : bool;
  quality : num;
  confidence : num
}.
Arguments mkAnalysis {num}.
Arguments feedback {num}.
Arguments metrics {num}.
Arguments phase {num}.
Arguments isValid {num}.
Arguments quality {num}.
Arguments confidence {num}.

#[global] Instance RepState_eq_dec : EqDecision RepState.
Proof. solve_decision. Defined.

#[global] Instance Phase_eq_dec : EqDecision Phase.
Proof. solve_decision. Defined.

(* ================================================================== *)
(** * String built-ins *)
(* ================================================================== *)

Module Strings.

(** [s.includes(sub)]: [sub] occurs in [s].  Strings are byte sequences
    (UTF-8); an occurrence of a well-formed needle in a well-formed string
    is the same at byte and at code-unit level. *)
Definition includes (s sub : string) : bool :=
  match String.index 0 sub s with
  | Some _ => true
  | None => false
  end.

(** Lower-casing of one byte in the ASCII range. *)
Definition lowerAscii (c : ascii) : ascii :=
  let n := nat_of_ascii c in
  if (65 <=? n)%nat && (n <=? 90)%nat then ascii_of_nat (n + 32) else c.

(** Lower-casing of the second byte of a two-byte sequence starting with
    0xC3 (U+00C0 .. U+00DE, the Latin-1 capital letters; U+00D7 is the
    multiplication sign). *)
Definition lowerLatin1 (c : ascii) : ascii :=
  let n := nat_of_ascii c in
  if (128 <=? n)%nat && (n <=? 158)%nat && negb (n =? 151)%nat
  then ascii_of_nat (n + 32) else c.

(** Byte-wise lower-casing; [afterC3] records that the previous byte was the
    lead byte 0xC3 of a Latin-1 letter. *)
Fixpoint lowerFrom (afterC3 : bool) (s : string) : string :=
  match s with
  | EmptyString => EmptyString
  | String c tl =>
      if afterC3 then String (lowerLatin1 c) (lowerFrom false tl)
      else String (lowerAscii c) (lowerFrom (nat_of_ascii c =? 195)%nat tl)
  end.

(** [s.toLowerCase()], on the ASCII and Latin-1 letters (the alphabet of the
    keyword tables of the code); other code points are left unchanged. *)
Definition toLowerCase (s : string) : string := lowerFrom false s.

End Strings.

(* ================================================================== *)
(** * The hook [usePoseAnalysis]: smoother and repetition state machine *)
(* ================================================================== *)

Module PoseAnalysis.

Import Strings.
Local Open Scope Q_scope.

(** [interface RepData]; the fields [quality] and [confidence] carry the
    prefix [rep_] because [BiomechanicalAnalysis] has fields of these names. *)
Record RepData := mkRepData {
  rep_count : Z;
  rep_duration : Q;
  rep_quality : Q;
  rep_timestamp : Z;
  rep_confidence : Q
}.

(** [interface SmoothingBuffer]: two parallel arrays. *)
Record SmoothingBuffer := mkBuffer {
  values : list Q;
  weights : list Q
}.

Definition MIN_CONFIDENCE_THRESHOLD : Q := 0.5.
Definition BUFFER_SIZE : nat := 5.

(** One entry of the table [thresholds]. *)
Record Thresholds := mkThresholds {
  up : Q;
  down : Q;
  hysteresis : Q
}.

Definition defaultThresholds : Thresholds := mkThresholds 150 90 10.

(** The object [thresholds.current], in insertion order, which is the order
    in which [Object.entries] enumerates it. *)
Definition thresholds : list (string * Thresholds) :=
  [ ("remada", mkThresholds 150 80 10);
    ("agachamento", mkThresholds 150 100 10);
    ("flexão", mkThresholds 150 90 8);
    ("levantamento terra", mkThresholds 160 120 10);
    ("supino", mkThresholds 160 80 8);
    ("default", defaultThresholds) ].

(** The mutable cells of the hook: the [useRef] cells first, then the
    [useState] values that [detectRep] and [analyze] set.  The feedback list
    [aiFeedback] is presentation only and is not part of the model. *)
Record Hook := mkHook {
  repState : RepState;
  repStartTime : Z;
  lastRepTime : Z;
  repHistory : list RepData;
  qualitySum : Q;
  confidenceSum : Q;
  repCountRef : Z;
  metricBuffer : SmoothingBuffer;
  repCount : Z;
  lastRepDuration : Q;
  currentPhase : Phase;
  avgQuality : Q;
  avgConfidence : Q
}.

(** The values of the cells when the hook is created. *)
Definition initialHook : Hook :=
  mkHook UP 0 0 [] 0 0 0 (mkBuffer [] []) 0 0 rest 0 0.

Definition set_repState (v : RepState) (h : Hook) : Hook :=
  mkHook v (repStartTime h) (lastRepTime h) (repHistory h) (qualitySum h)
    (confidenceSum h) (repCountRef h) (metricBuffer h) (repCount h)
    (lastRepDuration h) (currentPhase h) (avgQuality h) (avgConfidence h).

Definition set_repStartTime (v : Z) (h : Hook) : Hook :=
  mkHook (repState h) v (lastRepTime h) (repHistory h) (qualitySum h)
    (confidenceSum h) (repCountRef h) (metricBuffer h) (repCount h)
    (lastRepDuration h) (currentPhase h) (avgQuality h) (avgConfidence h).

Definition set_metricBuffer (v : SmoothingBuffer) (h : Hook) : Hook :=
  mkHook (repState h) (repStartTime h) (lastRepTime h) (repHistory h)
    (qualitySum h) (confidenceSum h) (repCountRef h) v (repCount h)
    (lastRepDuration h) (currentPhase h) (avgQuality h) (avgConfidence h).

Definition set_currentPhase (v : Phase) (h : Hook) : Hook :=
  mkHook (repState h) (repStartTime h) (lastRepTime h) (repHistory h)
    (qualitySum h) (confidenceSum h) (repCountRef h) (metricBuffer h)
    (repCount h) (lastRepDuration h) v (avgQuality h) (avgConfidence h).

(** The effect [useEffect(..., [selectedExercise])]: reset on a change of
    exercise.  The cells [repStartTime], [lastRepTime], [lastRepDuration] and
    [currentPhase] are not touched by it. *)
Definition resetOnExerciseChange (h : Hook) : Hook :=
  mkHook UP (repStartTime h) (lastRepTime h) [] 0 0 0 (mkBuffer [] []) 0
    (lastRepDuration h) (currentPhase h) 0 0.

(** Comparisons of numbers as booleans. *)
Definition Qltb (x y : Q) : bool := negb (Qle_bool y x).
Definition Qgtb (x y : Q) : bool := Qltb y x.

(** [Array.prototype.shift] on the array contents. *)
Definition shift {A} (l : list A) : list A := tail l.

(** The body of the [for] loop of [smoothMetric] at index [i]; [acc] is the
    pair [(weightedSum, totalWeight)].  An index out of range reads as 0
    here (it reads [undefined] in JavaScript); both arrays have the same
    length in every buffer that [smoothMetric] produces. *)
Definition smoothStep (decay : Q) (buffer : SmoothingBuffer) (acc : Q * Q)
    (i : nat) : Q * Q :=
  let n := length (values buffer) in
  let recency := decay ^ Z.of_nat (n - 1 - i) in
  let weight := nth i (weights buffer) 0 * recency in
  (fst acc + nth i (values buffer) 0 * weight, snd acc + weight).

(** [smoothMetric(value, confidence)]: returns the smoothed value and the
    buffer after the call. *)
Definition smoothMetric (buffer : SmoothingBuffer) (value confidence : Q)
    : Q * SmoothingBuffer :=
  let pushed := mkBuffer (values buffer ++ [value])
                         (weights buffer ++ [confidence]) in
  let buffer' :=
    if (BUFFER_SIZE <? length (values pushed))%nat
    then mkBuffer (shift (values pushed)) (shift (weights pushed))
    else pushed in
  let decay := 0.8 in
  let sums := fold_left (smoothStep decay buffer')
                (seq 0 (length (values buffer'))) (0, 0) in
  let weightedSum := fst sums in
  let totalWeight := snd sums in
  ((if Qgtb totalWeight 0 then weightedSum / totalWeight else value), buffer').

(** [getThresholds()]: the first key of the table that occurs in the
    lower-cased exercise name. *)
Definition getThresholds (selectedExercise : string) : Thresholds :=
  let exerciseLower := toLowerCase selectedExercise in
  match List.find (fun kv => includes exerciseLower (fst kv)) thresholds with
  | Some kv => snd kv
  | None => defaultThresholds
  end.

(** [a ?? b] on a metric that may be missing from the object. *)
Definition orElse (o : option Q) (d : Q) : Q := default d o.

(** [getPrimaryAngle(analysis)]: the pair (angle, confidence). *)
Definition getPrimaryAngle (selectedExercise : string)
    (analysis : BiomechanicalAnalysis Q) : Q * Q :=
  let exerciseLower := toLowerCase selectedExercise in
  let m := metrics analysis in
  if includes exerciseLower "remada" || includes exerciseLower "flexão"
     || includes exerciseLower "supino" then
    (orElse (m !! "elbowAngle") 180,
     orElse (m !! "elbowConfidence") (confidence analysis))
  else if includes exerciseLower "agachamento" then
    (orElse (m !! "kneeAngle") 180,
     orElse (m !! "kneeConfidence") (confidence analysis))
  else if includes exerciseLower "terra" then
    (orElse (m !! "hipAngle") 180, confidence analysis)
  else
    (orElse (m !! "elbowAngle") (orElse (m !! "kneeAngle") 180),
     confidence analysis).

(** [duration = (now - repStartTime.current) / 1000], in seconds. *)
Definition repDuration (now : Z) (h : Hook) : Q :=
  inject_Z (now - repStartTime h) / 1000.

(** The accepting path of [detectRep]: the assignments made between the two
    validity checks and [return true]. *)
Definition acceptRep (now : Z) (analysis : BiomechanicalAnalysis Q)
    (h : Hook) : Hook :=
  let duration := repDuration now h in
  let repData := mkRepData (repCountRef h + 1) duration (quality analysis)
                   now (confidence analysis) in
  let history := repHistory h ++ [repData] in
  let qsum := qualitySum h + quality analysis in
  let csum := confidenceSum h + confidence analysis in
  let len := inject_Z (Z.of_nat (length history)) in
  mkHook UP (repStartTime h) now history qsum csum (repCountRef h)
    (metricBuffer h) (repCount h) duration (currentPhase h)
    (qsum / len) (csum / len).

(** The state machine of [detectRep] (the [if]/[else if] chain that follows
    the computation of [smoothed], [getThresholds()] and [now]): the returned
    boolean is the result of [detectRep]. *)
Definition repStateMachine (th : Thresholds) (now : Z)
    (analysis : BiomechanicalAnalysis Q) (smoothed : Q) (h : Hook)
    : bool * Hook :=
  if bool_decide (repState h = UP) && Qltb smoothed (down th - hysteresis th)
  then
    (false, set_repStartTime now (set_repState TRANSITIONING h))
  else if bool_decide (repState h = TRANSITIONING)
          && Qgtb smoothed (up th + hysteresis th)
  then
    let duration := repDuration now h in
    if (now - lastRepTime h <? 500)%Z then (false, h)
    else if Qltb duration 0.3 || Qgtb duration 10
    then (false, set_repState UP h)
    else (true, acceptRep now analysis h)
  else if bool_decide (repState h = DOWN)
          && Qgtb smoothed (up th + hysteresis th)
  then (false, set_repState UP h)
  else if bool_decide (repState h = TRANSITIONING)
          && Qltb smoothed (down th - hysteresis th * 2)
  then (false, set_repState DOWN h)
  else (false, h).

(** [detectRep(analysis)], with the clock reading [now = Date.now()] as an
    argument.  [analysis.metrics] is an object in every analysis record, so
    [!analysis.metrics] is false. *)
Definition detectRep (selectedExercise : string) (now : Z)
    (analysis : BiomechanicalAnalysis Q) (h : Hook) : bool * Hook :=
  if negb (isValid analysis) then (false, h)
  else if Qltb (confidence analysis) MIN_CONFIDENCE_THRESHOLD then (false, h)
  else
    let pa := getPrimaryAngle selectedExercise analysis in
    let sm := smoothMetric (metricBuffer h) (fst pa) (snd pa) in
    let th := getThresholds selectedExercise in
    repStateMachine th now analysis (fst sm) (set_metricBuffer (snd sm) h).

(** In [analyze]: [repCountRef.current += 1; setRepCount(repCountRef.current)]
    when [detectRep] returned [true]. *)
Definition countRep (r : bool * Hook) : Hook :=
  let h := snd r in
  if fst r then
    mkHook (repState h) (repStartTime h) (lastRepTime h) (repHistory h)
      (qualitySum h) (confidenceSum h) (repCountRef h + 1) (metricBuffer h)
      (repCountRef h + 1) (lastRepDuration h) (currentPhase h)
      (avgQuality h) (avgConfidence h)
  else h.

(** The part of [analyze] that follows [analyzeExercise]: the phase and the
    repetition count (the feedback messages are not modelled). *)
Definition analyzeFrame (selectedExercise : string) (now : Z)
    (analysis : BiomechanicalAnalysis Q) (h : Hook) : Hook :=
  if isValid analysis then
    countRep (detectRep selectedExercise now analysis
                (set_currentPhase (phase analysis) h))
  else h.

(** The caller loop: one [analyzeFrame] per frame, in order; a frame is the
    clock reading and the analysis of its landmarks. *)
Definition feed (selectedExercise : string)
    (frames : list (Z * BiomechanicalAnalysis Q)) (h : Hook) : Hook :=
  fold_left (fun h f => analyzeFrame selectedExercise (fst f) (snd f) h)
    frames h.

(** The same loop on a sequence of already smoothed angles: the state
    machine is stepped with each sample [(now, smoothed)] and repetitions
    are counted as [analyze] counts them.  [analysis] is the (valid) analysis
    that accompanies every sample. *)
Definition feedSmoothed (th : Thresholds) (analysis : BiomechanicalAnalysis Q)
    (samples : list (Z * Q)) (h : Hook) : Hook :=
  fold_left (fun h s => countRep (repStateMachine th (fst s) analysis (snd s) h))
    samples h.

(** A valid analysis record for concrete frames: the knee angle, one
    confidence for the knee and for the whole record, and the quality (the
    fields that the hook reads for a squat). *)
Definition squatAnalysis (angle conf q : Q) : BiomechanicalAnalysis Q :=
  mkAnalysis [] (<["kneeAngle" := angle]> (<["kneeConfidence" := conf]> ∅))
    concentric true q conf.

(** The squat entry of the threshold table. *)
Definition squatThresholds : Thresholds := mkThresholds 150 100 10.

(** A clock reading of the year 2023, in milliseconds. *)
Definition clock0 : Z := 1700000000000.

(** One squat frame [dt] milliseconds after [clock0]: knee angle [angle],
    confidence 1, quality 90. *)
Definition squatFrame (dt : Z) (angle : Q) : Z * BiomechanicalAnalysis Q :=
  ((clock0 + dt)%Z, squatAnalysis angle 1 90).

(** Ten frames of a squat session: a repetition is accepted at the fourth
    frame, and the knee angle drops and rises again within the next 360 ms. *)
Definition quickSecondRep : list (Z * BiomechanicalAnalysis Q) :=
  [ squatFrame 0 85; squatFrame 100 180; squatFrame 200 180;
    squatFrame 300 180; squatFrame 360 0; squatFrame 420 0;
    squatFrame 480 180; squatFrame 540 180; squatFrame 600 180;
    squatFrame 660 180 ].

(** The sequence of smoothed angles [170,170,85,85,85,last] sampled at the
    given clock readings. *)
Definition squatSamples (t1 t2 t3 t4 t5 t6 : Z) (last : Q) : list (Z * Q) :=
  [ (t1, 170); (t2, 170); (t3, 85); (t4, 85); (t5, 85); (t6, last) ].

(** The buffer a hook starts with, and has after a change of exercise. *)
Definition emptyBuffer : SmoothingBuffer := mkBuffer [] [].

(** Buffers in which the two arrays run in parallel and respect the
    capacity. *)
Definition wf_buffer (b : SmoothingBuffer) : Prop :=
  length (values b) = length (weights b) /\
  (length (values b) <= BUFFER_SIZE)%nat.

(** The buffer after a sequence of calls [smoothMetric(value, confidence)],
    one per pair. *)
Definition pushAll (buffer : SmoothingBuffer) (ps : list (Q * Q))
    : SmoothingBuffer :=
  fold_left (fun b p => snd (smoothMetric b (fst p) (snd p))) ps buffer.

(** ** The smoother as the specification words it *)

(** The last [n] elements of a list, in order. *)
Definition lastN {A} (n : nat) (l : list A) : list A :=
  skipn (length l - n) l.

Definition Qsum (l : list Q) : Q := fold_right Qplus 0 l.

(** The weight of the sample at position [i] of a buffer of length [n]:
    [confidence_i * 0.8^(n-1-i)]. *)
Definition sampleWeight (confs : list Q) (n i : nat) : Q :=
  nth i confs 0 * 0.8 ^ Z.of_nat (n - 1 - i).

Definition totalWeight (confs : list Q) : Q :=
  let n := length confs in
  Qsum (map (sampleWeight confs n) (seq 0 n)).

(** The weighted average of the samples [(vals_i, confs_i)]. *)
Definition weightedAverage (vals confs : list Q) : Q :=
  let n := length confs in
  Qsum (map (fun i => nth i vals 0 * sampleWeight confs n i) (seq 0 n))
  / totalWeight confs.

(** ** The session as a user of the hook sees it *)

(** The cells right after the hook is created or the exercise is changed:
    nothing counted, nothing accumulated. *)
Definition fresh (h : Hook) : Prop :=
  repHistory h = [] /\ repCountRef h = 0%Z /\ repCount h = 0%Z /\
  qualitySum h == 0 /\ confidenceSum h == 0.

(** Consecutive records are at least 500 ms apart. *)
Fixpoint spaced (l : list RepData) : Prop :=
  match l with
  | r1 :: tl =>
      match tl with
      | r2 :: _ => (rep_timestamp r1 + 500 <= rep_timestamp r2)%Z
      | [] => True
      end /\ spaced tl
  | [] => True
  end.

(** The sequence numbers of the records are 1, 2, 3, ... from [k + 1]. *)
Fixpoint numberedFrom (k : Z) (l : list RepData) : Prop :=
  match l with
  | r :: tl => rep_count r = (k + 1)%Z /\ numberedFrom (k + 1) tl
  | [] => True
  end.

(** A record that passed the acceptance tests. *)
Definition plausible (r : RepData) : Prop :=
  0.3 <= rep_duration r <= 10 /\ 0.5 <= rep_confidence r.

(** What the cells of a session keep true of each other. *)
Definition sessionInvariant (h : Hook) : Prop :=
  repCountRef h = Z.of_nat (length (repHistory h)) /\
  repCount h = repCountRef h /\
  numberedFrom 0 (repHistory h) /\
  qualitySum h == Qsum (map rep_quality (repHistory h)) /\
  confidenceSum h == Qsum (map rep_confidence (repHistory h)) /\
  Forall plausible (repHistory h) /\
  spaced (repHistory h) /\
  (forall r, last (repHistory h) = Some r -> rep_timestamp r = lastRepTime h) /\
  (repHistory h <> [] ->
   avgQuality h
   == qualitySum h / inject_Z (Z.of_nat (length (repHistory h))) /\
   avgConfidence h
   == confidenceSum h / inject_Z (Z.of_nat (length (repHistory h)))).

(** The moves of the state machine in one call. *)
Definition allowedMove (before after : RepState) : Prop :=
  after = before \/
  (before = UP /\ after = TRANSITIONING) \/
  (before = TRANSITIONING /\ after = DOWN) \/
  (before = TRANSITIONING /\ after = UP) \/
  (before = DOWN /\ after = UP).

End PoseAnalysis.

(* ================================================================== *)
(** * The library [lib/geometry]: primitives, analyzers, dispatcher *)
(* ================================================================== *)

Module Geometry.

Import Strings.
Local Open Scope R_scope.

(** [interface Point]: [z] and [visibility] are optional. *)
Record Point := mkPoint {
  x : R;
  y : R;
  z : option R;
  visibility : option R
}.

(** [interface Vector3D] (its fields carry the prefix [v]). *)
Record Vector3D := mkVector3D {
  vx : R;
  vy : R;
  vz : R
}.

(** ** Number operations *)

Definition Rltb (a b : R) : bool := if Rlt_dec a b then true else false.
Definition Rgtb (a b : R) : bool := Rltb b a.
Definition Rleb (a b : R) : bool := if Rle_dec a b then true else false.
Definition Rgeb (a b : R) : bool := Rleb b a.
Definition Reqb (a b : R) : bool := if Req_dec_T a b then true else false.

(** [a / b] for a divisor that is not a non-zero constant: no real number
    results when the divisor is zero. *)
Definition div (a b : R) : option R :=
  if Reqb b 0 then None else Some (a / b).

(** [Math.sqrt]: NaN on a negative argument. *)
Definition Math_sqrt (a : R) : option R :=
  if Rleb 0 a then Some (sqrt a) else None.

(** [Math.acos]: NaN outside [-1,1]. *)
Definition Math_acos (a : R) : option R :=
  if Rleb (-1) a && Rleb a 1 then Some (acos a) else None.

(** [Math.atan2(b, a)]: the angle of the point [(a, b)], in (-PI, PI]. *)
Definition Math_atan2 (b a : R) : R :=
  if Rltb 0 a then atan (b / a)
  else if Rltb a 0 then
    (if Rleb 0 b then atan (b / a) + PI else atan (b / a) - PI)
  else if Rltb 0 b then PI / 2
  else if Rltb b 0 then - (PI / 2)
  else 0.

(** [Math.round]: the nearest integer, halves rounded up. *)
Definition Math_round (a : R) : R := IZR (Zfloor (a + / 2)).

(** [o ?? d] on an optional field. *)
Definition orElse (o : option R) (d : R) : R := default d o.

(** ** Vector utilities *)

Definition toVector3D (p : Point) : Vector3D :=
  mkVector3D (x p) (y p) (orElse (z p) 0).

Definition subtractVectors (a b : Vector3D) : Vector3D :=
  mkVector3D (vx a - vx b) (vy a - vy b) (vz a - vz b).

Definition dotProduct (a b : Vector3D) : R :=
  vx a * vx b + vy a * vy b + vz a * vz b.

Definition magnitude (v : Vector3D) : option R :=
  Math_sqrt (vx v * vx v + vy v * vy v + vz v * vz v).

Definition crossProduct (a b : Vector3D) : Vector3D :=
  mkVector3D (vy a * vz b - vz a * vy b)
             (vz a * vx b - vx a * vz b)
             (vx a * vy b - vy a * vx b).

(** ** Angles and distances *)

(** [calculateAngle(a, b, c)]: the angle at the vertex [b], in degrees. *)
Definition calculateAngle (a b c : Point) : option R :=
  let va := toVector3D a in
  let vb := toVector3D b in
  let vc := toVector3D c in
  let ba := subtractVectors va vb in
  let bc := subtractVectors vc vb in
  let dot := dotProduct ba bc in
  magBA ← magnitude ba;
  magBC ← magnitude bc;
  if Reqb magBA 0 || Reqb magBC 0 then Some 0
  else
    ratio ← div dot (magBA * magBC);
    let cosAngle := Rmax (-1) (Rmin 1 ratio) in
    angle ← Math_acos cosAngle;
    Some (angle * (180 / PI)).

(** [calculateAngle2D(a, b, c)]: the angle at [b] in the x-y plane. *)
Definition calculateAngle2D (a b c : Point) : R :=
  let radians := Math_atan2 (y c - y b) (x c - x b)
                 - Math_atan2 (y a - y b) (x a - x b) in
  let angle := Rabs ((radians * 180) / PI) in
  if Rgtb angle 180 then 360 - angle else angle.

Definition calculateDistance (a b : Point) : option R :=
  let dx := x a - x b in
  let dy := y a - y b in
  let dz := orElse (z a) 0 - orElse (z b) 0 in
  Math_sqrt (dx * dx + dy * dy + dz * dz).

Definition calculateDistance2D (a b : Point) : option R :=
  let dx := x a - x b in
  let dy := y a - y b in
  Math_sqrt (dx * dx + dy * dy).

(** [landmarks[i]] is truthy: the index is within the frame. *)
Definition present (landmarks : list Point) (i : nat) : bool :=
  match landmarks !! i with
  | Some _ => true
  | None => false
  end.

(** [getAverageConfidence(landmarks, indices)]. *)
Definition getAverageConfidence (landmarks : list Point) (indices : list nat)
    : option R :=
  let validPoints := List.filter (present landmarks) indices in
  if (length validPoints =? 0)%nat then Some 0
  else
    sum ← fold_left
             (fun acc i =>
                s ← acc;
                p ← landmarks !! i;
                Some (s + orElse (visibility p) 1))
             validPoints (Some 0);
    div sum (INR (length validPoints)).

(** [calculateWeightedAngle(a, b, c)]: the pair (angle, confidence). *)
Definition calculateWeightedAngle (a b c : Point) : option (R * R) :=
  angle ← calculateAngle a b c;
  let confidence :=
    Rmin (orElse (visibility a) 1)
         (Rmin (orElse (visibility b) 1) (orElse (visibility c) 1)) in
  Some (angle, confidence).

Definition isVisible (point : Point) (threshold : R) : bool :=
  Rgeb (orElse (visibility point) 1) threshold.

(** [validateLandmarks]: [isVisible] is called with its default threshold. *)
Definition validateLandmarks (landmarks : list Point) (indices : list nat)
    : bool :=
  forallb (fun i =>
             match landmarks !! i with
             | Some p => isVisible p 0.5
             | None => false
             end) indices.



(** [pointToLineDistance(p, a, b)]. *)
Definition pointToLineDistance (p a b : Point) : option R :=
  let va := toVector3D a in
  let vb := toVector3D b in
  let vp := toVector3D p in
  let ab := subtractVectors vb va in
  let ap := subtractVectors vp va in
  let cross := crossProduct ab ap in
  crossMag ← magnitude cross;
  abMag ← magnitude ab;
  if Reqb abMag 0 then magnitude ap
  else div crossMag abMag.

(** ** Exercise analyzers *)

(** The two local variables [feedback] and [quality] of an analyzer. *)
Record Assessment := mkAssessment {
  notes : list string;
  score : R
}.

(** [feedback.push(msg)] *)
Definition say (msg : string) (a : Assessment) : Assessment :=
  mkAssessment (notes a ++ [msg]) (score a).

(** [quality -= n] *)
Definition penalize (n : R) (a : Assessment) : Assessment :=
  mkAssessment (notes a) (score a - n).

(** The record returned when the required landmarks are not all visible,
    and by the dispatcher for an unknown exercise. *)
Definition notEvaluable (msg : string) : BiomechanicalAnalysis R :=
  mkAnalysis [msg] ∅ rest false 0 0.

(** The record returned for an evaluable frame. *)
Definition evaluated (a : Assessment) (m : gmap string R) (ph : Phase)
    (conf : R) : BiomechanicalAnalysis R :=
  mkAnalysis (notes a) m ph true (Rmax 0 (Math_round (score a))) conf.

Definition backRowPoints : list nat := [11; 13; 15; 23; 27; 12]%nat.
Definition squatPoints : list nat := [11; 23; 24; 25; 26; 27; 28]%nat.
Definition pushUpPoints : list nat := [11; 13; 15; 23; 25; 27]%nat.

Definition analyzeBackRow (landmarks : list Point)
    : option (BiomechanicalAnalysis R) :=
  let requiredPoints := backRowPoints in
  if negb (validateLandmarks landmarks requiredPoints)
  then Some (notEvaluable "Posicione-se de lado para a câmera")
  else
    shoulder ← landmarks !! 11%nat;
    elbow ← landmarks !! 13%nat;
    wrist ← landmarks !! 15%nat;
    hip ← landmarks !! 23%nat;
    ankle ← landmarks !! 27%nat;
    shoulderR ← landmarks !! 12%nat;
    conf ← getAverageConfidence landmarks requiredPoints;
    let a0 := mkAssessment [] 100 in
    elbowResult ← calculateWeightedAngle shoulder elbow wrist;
    let elbowAngle := fst elbowResult in
    let torsoAngle := calculateAngle2D shoulder hip ankle in
    let a1 :=
      if Rgtb torsoAngle 160
      then penalize 15 (say "Incline o tronco para frente (~45°)" a0)
      else if Rltb torsoAngle 100
      then penalize 20 (say "Não incline demais - proteja a lombar" a0)
      else if Rgeb torsoAngle 120 && Rleb torsoAngle 150
      then say "Inclinação do tronco perfeita" a0
      else a0 in
    let shoulderYDist := Rabs (y shoulder - y shoulderR) in
    let shoulderZDist := Rabs (orElse (z shoulder) 0 - orElse (z shoulderR) 0) in
    let a2 :=
      if Rgtb shoulderYDist 0.05 || Rgtb shoulderZDist 0.1
      then penalize 15 (say "Mantenha os ombros alinhados - sem rotação" a1)
      else a1 in
    let a3 :=
      if Rgtb elbowAngle 160
      then say "Braço estendido - inicie a puxada" a2
      else if Rltb elbowAngle 60
      then penalize 10 (say "Puxada muito curta - estenda mais o braço" a2)
      else a2 in
    elbowTorsoDistance ← calculateDistance2D elbow hip;
    let a4 :=
      if Rgtb elbowTorsoDistance 0.15
      then penalize 10 (say "Mantenha o cotovelo próximo ao corpo" a3)
      else a3 in
    let m : gmap string R :=
      <["elbowProximity" := elbowTorsoDistance]>
      (<["shoulderRotation" := shoulderZDist]>
      (<["shoulderAlignment" := shoulderYDist]>
      (<["torsoAngle" := torsoAngle]>
      (<["elbowConfidence" := snd elbowResult]>
      (<["elbowAngle" := elbowAngle]> ∅))))) in
    let ph :=
      if Rgtb elbowAngle 150 then eccentric
      else if Rltb elbowAngle 90 then concentric
      else isometric in
    Some (evaluated a4 m ph conf).

Definition analyzeSquat (landmarks : list Point)
    : option (BiomechanicalAnalysis R) :=
  let requiredPoints := squatPoints in
  if negb (validateLandmarks landmarks requiredPoints)
  then Some (notEvaluable "Posicione-se de frente ou de costas para a câmera")
  else
    shoulder ← landmarks !! 11%nat;
    hipL ← landmarks !! 23%nat;
    hipR ← landmarks !! 24%nat;
    kneeL ← landmarks !! 25%nat;
    kneeR ← landmarks !! 26%nat;
    ankleL ← landmarks !! 27%nat;
    ankleR ← landmarks !! 28%nat;
    conf ← getAverageConfidence landmarks requiredPoints;
    let a0 := mkAssessment [] 100 in
    kneeResult ← calculateWeightedAngle hipL kneeL ankleL;
    let kneeAngle := fst kneeResult in
    let a1 :=
      if Rgtb kneeAngle 160
      then say "Posição inicial - desça controladamente" a0
      else if Rltb kneeAngle 90
      then say "Profundidade completa! Excelente" a0
      else if Rltb kneeAngle 120
      then say "Boa profundidade - paralelo atingido" a0
      else if Rltb kneeAngle 140
      then penalize 10 (say "Desça um pouco mais para profundidade ideal" a0)
      else a0 in
    torsoAngle ← calculateAngle shoulder hipL kneeL;
    let a2 :=
      if Rltb torsoAngle 140
      then penalize 15
             (say "Mantenha o peito erguido - costas muito inclinadas" a1)
      else if Rgtb torsoAngle 180
      then penalize 10 (say "Não incline para trás demais" a1)
      else a1 in
    kneeAnkleDist ← calculateDistance2D kneeL ankleL;
    kneeForwardRatio ← div (x kneeL - x ankleL) (Rmax kneeAnkleDist 0.01);
    let a3 :=
      if Rgtb (Rabs kneeForwardRatio) 0.3
      then penalize 15 (say "Joelho ultrapassando a ponta do pé" a2)
      else a2 in
    kneeAngleR ← calculateAngle hipR kneeR ankleR;
    let asymmetry := Rabs (kneeAngle - kneeAngleR) in
    let a4 :=
      if Rgtb asymmetry 15
      then penalize (Rmin 20 (Math_round (asymmetry * 0.5)))
             (say "Distribua o peso uniformemente entre as pernas" a3)
      else a3 in
    let hipCenterX := (x hipL + x hipR) / 2 in
    let ankleCenterX := (x ankleL + x ankleR) / 2 in
    let lateralShift := Rabs (hipCenterX - ankleCenterX) in
    let a5 :=
      if Rgtb lateralShift 0.08
      then penalize 10 (say "Mantenha o quadril centralizado" a4)
      else a4 in
    let m : gmap string R :=
      <["lateralShift" := lateralShift]>
      (<["legAsymmetry" := asymmetry]>
      (<["kneeForwardRatio" := kneeForwardRatio]>
      (<["torsoAngle" := torsoAngle]>
      (<["kneeConfidence" := snd kneeResult]>
      (<["kneeAngle" := kneeAngle]> ∅))))) in
    let ph :=
      if Rgtb kneeAngle 150 then rest
      else if Rltb kneeAngle 110 then concentric
      else eccentric in
    Some (evaluated a5 m ph conf).

Definition analyzePushUp (landmarks : list Point)
    : option (BiomechanicalAnalysis R) :=
  let requiredPoints := pushUpPoints in
  if negb (validateLandmarks landmarks requiredPoints)
  then Some (notEvaluable "Posicione-se de lado para a câmera")
  else
    shoulder ← landmarks !! 11%nat;
    elbow ← landmarks !! 13%nat;
    wrist ← landmarks !! 15%nat;
    hip ← landmarks !! 23%nat;
    ankle ← landmarks !! 27%nat;
    conf ← getAverageConfidence landmarks requiredPoints;
    let a0 := mkAssessment [] 100 in
    elbowResult ← calculateWeightedAngle shoulder elbow wrist;
    let elbowAngle := fst elbowResult in
    let a1 :=
      if Rgtb elbowAngle 160
      then say "Posição inicial - desça controladamente" a0
      else if Rltb elbowAngle 90
      then say "Profundidade completa! Ótima execução" a0
      else if Rltb elbowAngle 120
      then say "Boa profundidade - continue" a0
      else penalize 15
             (say "Desça mais para aproveitar o movimento completo" a0) in
    hipLineDeviation ← pointToLineDistance hip shoulder ankle;
    let bodyAngle := calculateAngle2D shoulder hip ankle in
    let a2 :=
      if Rgtb hipLineDeviation 0.05 || Rltb bodyAngle 160
      then penalize 20 (say "Quadril muito alto - mantenha o corpo reto" a1)
      else if Rgtb bodyAngle 190
      then penalize 20 (say "Quadril caído - ative o core" a1)
      else say "Alinhamento corporal perfeito" a1 in
    elbowShoulderDist ← calculateDistance elbow shoulder;
    let elbowFlare := Rabs (x elbow - x shoulder) in
    let a3 :=
      if Rgtb elbowFlare 0.15
      then penalize 10 (say "Cotovelos muito abertos - aproxime do corpo" a2)
      else a2 in
    let elbowDepthDiff := orElse (z elbow) 0 - orElse (z shoulder) 0 in
    let m : gmap string R :=
      <["elbowDepth" := elbowDepthDiff]>
      (<["elbowShoulderDist" := elbowShoulderDist]>
      (<["elbowFlare" := elbowFlare]>
      (<["bodyAlignment" := bodyAngle]>
      (<["hipDeviation" := hipLineDeviation]>
      (<["elbowConfidence" := snd elbowResult]>
      (<["elbowAngle" := elbowAngle]> ∅)))))) in
    let ph :=
      if Rgtb elbowAngle 150 then rest
      else if Rltb elbowAngle 110 then concentric
      else eccentric in
    Some (evaluated a3 m ph conf).

(** [analyzeExercise(exercise, landmarks)]: the dispatcher. *)
Definition analyzeExercise (exercise : string) (landmarks : list Point)
    : option (BiomechanicalAnalysis R) :=
  let exerciseLower := toLowerCase exercise in
  if includes exerciseLower "remada" || includes exerciseLower "row"
  then analyzeBackRow landmarks
  else if includes exerciseLower "agachamento" || includes exerciseLower "squat"
  then analyzeSquat landmarks
  else if includes exerciseLower "flexão" || includes exerciseLower "push"
          || includes exerciseLower "pushup"
  then analyzePushUp landmarks
  else Some (notEvaluable "Exercício não reconhecido").

(** ** The penalties as the specification words them *)

(** The rules that subtract a fixed amount, by the message they emit. *)
Definition penaltyTable : list (string * Z) :=
  [ ("Incline o tronco para frente (~45°)", 15);
    ("Não incline demais - proteja a lombar", 20);
    ("Mantenha os ombros alinhados - sem rotação", 15);
    ("Puxada muito curta - estenda mais o braço", 10);
    ("Mantenha o cotovelo próximo ao corpo", 10);
    ("Desça um pouco mais para profundidade ideal", 10);
    ("Mantenha o peito erguido - costas muito inclinadas", 15);
    ("Não incline para trás demais", 10);
    ("Joelho ultrapassando a ponta do pé", 15);
    ("Mantenha o quadril centralizado", 10);
    ("Desça mais para aproveitar o movimento completo", 15);
    ("Quadril muito alto - mantenha o corpo reto", 20);
    ("Quadril caído - ative o core", 20);
    ("Cotovelos muito abertos - aproxime do corpo", 10) ]%Z.

(** The fixed penalty of a message; 0 for a message that carries none. *)
Definition fixedPenalty (msg : string) : Z :=
  match List.find (fun kv => String.eqb (fst kv) msg) penaltyTable with
  | Some kv => snd kv
  | None => 0%Z
  end.

(** The message of the leg-asymmetry rule of the squat. *)
Definition asymmetryMessage : string :=
  "Distribua o peso uniformemente entre as pernas".

(** The penalty behind a feedback message of an analysis with metrics [m]:
    the asymmetry rule subtracts half the asymmetry, rounded, capped at 20;
    every other rule subtracts its fixed amount. *)
Definition penaltyOf (m : gmap string R) (msg : string) : R :=
  if String.eqb msg asymmetryMessage
  then Rmin 20 (Math_round (orElse (m !! "legAsymmetry") 0 * 0.5))
  else IZR (fixedPenalty msg).

Definition Rsum (l : list R) : R := fold_right Rplus 0 l.

(** A required landmark that is absent from the frame, or whose visibility
    is given and below the threshold. *)
Definition notVisible (landmarks : list Point) (i : nat) : Prop :=
  landmarks !! i = None \/
  exists p v, landmarks !! i = Some p /\ visibility p = Some v /\ v < 0.5.

(** An assessment is accounted for by the penalty function [pen] when its
    score is an integer, equal to 100 minus the penalties of its messages,
    each of which is 0 or between 8 and 20. *)
Definition accounted (pen : string -> R) (a : Assessment) : Prop :=
  (exists k : Z, score a = IZR k) /\
  score a = 100 - Rsum (map pen (notes a)) /\
  Forall (fun msg => pen msg = 0 \/ 8 <= pen msg <= 20) (notes a).

(** The same for the record that an analyzer returns. *)
Definition scored (r : BiomechanicalAnalysis R) : Prop :=
  quality r
  = Rmax 0 (100 - Rsum (map (penaltyOf (metrics r)) (feedback r))) /\
  Forall (fun msg => penaltyOf (metrics r) msg = 0
                     \/ 8 <= penaltyOf (metrics r) msg <= 20) (feedback r) /\
  0 <= quality r <= 100.

(** Every visibility given in the frame lies in [0, 1]. *)
Definition visibilities_in_unit (landmarks : list Point) : Prop :=
  forall p v, In p landmarks -> visibility p = Some v -> 0 <= v <= 1.

(** An assessment whose score is at least [k] and that does not carry the
    message [msg]. *)
Definition profile (k : R) (msg : string) (a : Assessment) : Prop :=
  k <= score a /\ ~ In msg (notes a).

(** A required landmark that is in the frame and passes [isVisible]. *)
Definition visibleIn (landmarks : list Point) (i : nat) : Prop :=
  exists p, landmarks !! i = Some p /\ 0.5 <= orElse (visibility p) 1.

(** ** Concrete frames *)

(** A landmark that no analyzer inspects. *)
Definition filler : Point := mkPoint (1 / 2) (1 / 2) None None.

(** A landmark at [(px, py)] reported with full visibility and no depth. *)
Definition visibleAt (px py : R) : Point := mkPoint px py None (Some 1).

(** A frame of 29 landmarks with the given shoulder (11), hips (23, 24),
    knees (25, 26) and ankles (27, 28). *)
Definition squatPose (shoulder hipL hipR kneeL kneeR ankleL ankleR : Point)
    : list Point :=
  repeat filler 11 ++ [shoulder] ++ repeat filler 11
  ++ [hipL; hipR; kneeL; kneeR; ankleL; ankleR].

(** A person standing upright whose right knee is bent by about 17 degrees
    while the left leg is straight. *)
Definition unevenSquat : list Point :=
  squatPose (visibleAt 0.4 0.2)
            (visibleAt 0.4 0.4) (visibleAt 0.6 0.4)
            (visibleAt 0.4 0.6) (visibleAt 0.6 0.573)
            (visibleAt 0.4 0.8) (visibleAt 0.652 0.738).

(** The same frame with the left ankle reported at visibility 0.3. *)
Definition hiddenAnkle : list Point :=
  squatPose (visibleAt 0.4 0.2)
            (visibleAt 0.4 0.4) (visibleAt 0.6 0.4)
            (visibleAt 0.4 0.6) (visibleAt 0.6 0.573)
            (mkPoint 0.4 0.8 None (Some 0.3)) (visibleAt 0.652 0.738).

End Geometry.

(* ================================================================== *)
(** * The library [lib/video-utils]: frame extraction settings *)
(* ================================================================== *)

Module VideoUtils.

Local Open Scope Q_scope.

(** [type VideoQuality = 'low' | 'medium' | 'high'] *)
Inductive VideoQuality := low | medium | high.

(** [interface FrameExtractionOptions]; sizes and counts are integers. *)
Record FrameExtractionOptions := mkOptions {
  maxWidth : Z;
  maxHeight : Z;
  quality : Q;
  frameCount : Z
}.

(** [Partial<FrameExtractionOptions>]: every field may be missing. *)
Record PartialOptions := mkPartial {
  maxWidth' : option Z;
  maxHeight' : option Z;
  quality' : option Q;
  frameCount' : option Z
}.

Definition FRAME_EXTRACTION_PRESETS (q : VideoQuality)
    : FrameExtractionOptions :=
  match q with
  | low => mkOptions 480 360 0.5 4
  | medium => mkOptions 640 480 0.7 6
  | high => mkOptions 854 480 0.85 8
  end.

(** [{ ...o, frameCount: n }] *)
Definition withFrameCount (o : FrameExtractionOptions) (n : Z)
    : FrameExtractionOptions :=
  mkOptions (maxWidth o) (maxHeight o) (quality o) n.

(** [getOptimalFrameSettings(durationSeconds)] *)
Definition getOptimalFrameSettings (durationSeconds : Q)
    : FrameExtractionOptions :=
  if Qle_bool durationSeconds 5
  then withFrameCount (FRAME_EXTRACTION_PRESETS low) 3
  else if Qle_bool durationSeconds 15
  then FRAME_EXTRACTION_PRESETS medium
  else if Qle_bool durationSeconds 30
  then withFrameCount (FRAME_EXTRACTION_PRESETS medium) 8
  else withFrameCount (FRAME_EXTRACTION_PRESETS high) 10.

(** [estimateBlobSizeMB(blob)], from the size of the blob in bytes. *)
Definition estimateBlobSizeMB (size : Z) : Q :=
  inject_Z size / (1024 * 1024).

(** [{ ...o, ...p }] for a partial [p]: the fields of [p] that are present
    replace those of [o]. *)
Definition spreadPartial (o : FrameExtractionOptions) (p : PartialOptions)
    : FrameExtractionOptions :=
  mkOptions (default (maxWidth o) (maxWidth' p))
            (default (maxHeight o) (maxHeight' p))
            (default (quality o) (quality' p))
            (default (frameCount o) (frameCount' p)).

(** [{ ...o, ...q }] for a complete [q]. *)
Definition spread (o q : FrameExtractionOptions) : FrameExtractionOptions :=
  spreadPartial o (mkPartial (Some (maxWidth q)) (Some (maxHeight q))
                     (Some (quality q)) (Some (frameCount q))).

(** In [extractFramesFromVideo]: the constant [options] parsed from the
    argument [frameCountOrOptions], a number or a partial options object. *)
Definition parseOptions (frameCountOrOptions : Z + PartialOptions)
    : FrameExtractionOptions :=
  match frameCountOrOptions with
  | inl n => withFrameCount (FRAME_EXTRACTION_PRESETS medium) n
  | inr p => spreadPartial (FRAME_EXTRACTION_PRESETS medium) p
  end.

(** In [video.onloadedmetadata]: the constant [effectiveOptions], once the
    duration of the video is known. *)
Definition effectiveOptions (frameCountOrOptions : Z + PartialOptions)
    (duration : Q) : FrameExtractionOptions :=
  match frameCountOrOptions with
  | inl _ => parseOptions frameCountOrOptions
  | inr _ => spread (parseOptions frameCountOrOptions)
               (getOptimalFrameSettings duration)
  end.

(** [Math.round] and [Math.floor] with an integer result. *)
Definition Math_round (q : Q) : Z := Qfloor (q + (1 # 2)).
Definition Math_floor (q : Q) : Z := Qfloor q.

(** In [video.onloadedmetadata]: the canvas size [(targetWidth,
    targetHeight)] computed from the size of the video. *)
Definition targetSize (videoWidth videoHeight : Z)
    (o : FrameExtractionOptions) : Z * Z :=
  let videoAspect := inject_Z videoWidth / inject_Z videoHeight in
  let targetWidth := Z.min videoWidth (maxWidth o) in
  let targetHeight := Math_round (inject_Z targetWidth / videoAspect) in
  if (maxHeight o <? targetHeight)%Z
  then (Math_round (inject_Z (maxHeight o) * videoAspect), maxHeight o)
  else (targetWidth, targetHeight).

(** In [captureFrame]: the position [targetTime] of frame [currentFrame]. *)
Definition targetTime (duration : Q) (count currentFrame : Z) : Q :=
  let interval := duration / inject_Z (count + 1) in
  interval * inject_Z (currentFrame + 1).

(** The test of [captureFrame] that skips a frame ([isFinite] holds of every
    rational). *)
Definition skipsFrame (duration : Q) (count currentFrame : Z) : bool :=
  let t := targetTime duration count currentFrame in
  negb (Qle_bool 0 t) || negb (Qle_bool t duration).

(** The quotient of [a / n] rounded towards zero. *)
Definition truncate (q : Q) : Z :=
  if Qle_bool 0 q then Qfloor q else Qceiling q.

(** [a % n] for a divisor other than zero: the remainder has the sign of
    the dividend. *)
Definition remainder (a n : Q) : Q := a - inject_Z (truncate (a / n)) * n.

(** [z.toString()] for an integer (below the magnitude from which
    JavaScript switches to the exponent notation). *)
Definition toString (z : Z) : string := NilZero.string_of_int (Z.to_int z).

Fixpoint repeatChar (c : ascii) (n : nat) : string :=
  match n with
  | O => EmptyString
  | S m => String c (repeatChar c m)
  end.

(** [s.padStart(targetLength, c)] for a one-character filler. *)
Definition padStart (s : string) (targetLength : nat) (c : ascii) : string :=
  (repeatChar c (targetLength - String.length s) ++ s)%string.

(** [formatDuration(seconds)] *)
Definition formatDuration (seconds : Q) : string :=
  let mins := Math_floor (seconds / 60) in
  let secs := Math_floor (remainder seconds 60) in
  (toString mins ++ ":" ++ padStart (toString secs) 2 "0")%string.

(** The character of a decimal digit. *)
Definition digit (n : Z) : ascii := ascii_of_nat (48 + Z.to_nat n).

End VideoUtils.

(* ================================================================== *)
(** * The hook [useCamera]: choice of the video quality *)
(* ================================================================== *)

Module Camera.

(** [interface VideoQualityPreset] *)
Record VideoQualityPreset := mkPreset {
  width : Z;
  height : Z;
  bitrate : Z;
  frameRate : option Z;
  label : option string
}.

(** [interface CameraCapabilities] *)
Record CameraCapabilities := mkCapabilities {
  maxWidth : Z;
  maxHeight : Z;
  supportedFrameRates : list Z
}.

Definition VIDEO_QUALITY_PRESETS (q : VideoUtils.VideoQuality)
    : VideoQualityPreset :=
  match q with
  | VideoUtils.low => mkPreset 640 480 1000000 (Some 24) (Some "Baixa (480p)")
  | VideoUtils.medium =>
      mkPreset 1280 720 2500000 (Some 30) (Some "Média (720p)")
  | VideoUtils.high => mkPreset 1920 1080 5000000 (Some 30) (Some "Alta (1080p)")
  end%Z.

(** [selectBestQuality(capabilities, preferred)] *)
Definition selectBestQuality (capabilities : option CameraCapabilities)
    (preferred : option VideoUtils.VideoQuality) : VideoQualityPreset :=
  match preferred with
  | Some q =>
      let preset := VIDEO_QUALITY_PRESETS q in
      match capabilities with
      | None => preset
      | Some caps =>
          mkPreset (Z.min (width preset) (maxWidth caps))
                   (Z.min (height preset) (maxHeight caps))
                   (bitrate preset)
                   (Some (Z.min (default 30%Z (frameRate preset))
                            (default 30%Z (supportedFrameRates caps !! 1%nat))))
                   (label preset)
      end
  | None =>
      match capabilities with
      | None => VIDEO_QUALITY_PRESETS VideoUtils.medium
      | Some caps =>
          if (1920 <=? maxWidth caps)%Z && (1080 <=? maxHeight caps)%Z
          then VIDEO_QUALITY_PRESETS VideoUtils.high
          else if (1280 <=? maxWidth caps)%Z && (720 <=? maxHeight caps)%Z
          then VIDEO_QUALITY_PRESETS VideoUtils.medium
          else VIDEO_QUALITY_PRESETS VideoUtils.low
      end
  end.

End Camera.

(* ================================================================== *)
(** * Properties of the temporal smoother *)
(* ================================================================== *)

Module SmootherFacts.

Import PoseAnalysis.
Local Open Scope Q_scope.

Local Ltac qlra := Lqa.lra.
Local Ltac qnra := Lqa.nra.

Lemma Qltb_lt (a b : Q) : Qltb a b = true <-> a < b.
Proof.
  unfold Qltb. rewrite negb_true_iff. split.
  - intros H. apply Qnot_le_lt. intros Hle.
    apply Qle_bool_iff in Hle. congruence.
  - intros H. destruct (Qle_bool b a) eqn:E; [|reflexivity].
    apply Qle_bool_iff in E. qlra.
Qed.

Lemma Qltb_ge (a b : Q) : Qltb a b = false <-> b <= a.
Proof.
  unfold Qltb. rewrite negb_false_iff. apply Qle_bool_iff.
Qed.

Lemma Qgtb_gt (a b : Q) : Qgtb a b = true <-> b < a.
Proof. apply Qltb_lt. Qed.

Lemma Qgtb_le (a b : Q) : Qgtb a b = false <-> a <= b.
Proof. apply Qltb_ge. Qed.

(** The loop of [smoothMetric] accumulates the two sums. *)
Lemma fold_smoothStep (decay : Q) (b : SmoothingBuffer) (l : list nat)
    (acc : Q * Q) :
  let n := length (values b) in
  let w i := nth i (weights b) 0 * decay ^ Z.of_nat (n - 1 - i) in
  let r := fold_left (smoothStep decay b) l acc in
  fst r == fst acc + Qsum (map (fun i => nth i (values b) 0 * w i) l) /\
  snd r == snd acc + Qsum (map w l).
Proof.
  revert acc. induction l as [|i l IH]; intros acc; cbn zeta.
  - simpl. split; ring.
  - simpl fold_left. destruct (IH (smoothStep decay b acc i)) as [H1 H2].
    cbn zeta in H1, H2. rewrite H1, H2. unfold smoothStep; simpl. split; ring.
Qed.

Lemma lastN_short {A} (n : nat) (l : list A) :
  (length l <= n)%nat -> lastN n l = l.
Proof.
  intros H. unfold lastN. replace (length l - n)%nat with 0%nat by lia.
  reflexivity.
Qed.

Lemma length_lastN {A} (n : nat) (l : list A) :
  length (lastN n l) = Nat.min n (length l).
Proof. unfold lastN. rewrite length_drop. lia. Qed.

Lemma lastN_map {A B} (f : A -> B) (n : nat) (l : list A) :
  lastN n (map f l) = map f (lastN n l).
Proof. unfold lastN. rewrite length_map, skipn_map. reflexivity. Qed.

(** Pushing on the last [n] elements and cutting again is pushing on the
    whole history and cutting once. *)
Lemma lastN_push {A} (n : nat) (l : list A) (a : A) :
  (1 <= n)%nat -> lastN n (lastN n l ++ [a]) = lastN n (l ++ [a]).
Proof.
  intros Hn. destruct (le_lt_dec (length l) n) as [Hl|Hl].
  - rewrite (lastN_short n l Hl). reflexivity.
  - unfold lastN at 1 3. rewrite !length_app, length_lastN. simpl.
    replace (Nat.min n (length l) + 1 - n)%nat with 1%nat by lia.
    unfold lastN. rewrite !drop_app, length_drop, drop_drop.
    replace (1 - (length l - (length l - n)))%nat with 0%nat by lia.
    replace (length l + 1 - n - length l)%nat with 0%nat by lia.
    replace (length l - n + 1)%nat with (length l + 1 - n)%nat by lia.
    reflexivity.
Qed.

(** The eviction of [smoothMetric]: one [shift] when the capacity is
    exceeded keeps the last [BUFFER_SIZE] entries. *)
Lemma evict_lastN {A} (l : list A) (a : A) :
  (length l <= BUFFER_SIZE)%nat ->
  (if (BUFFER_SIZE <? length (l ++ [a]))%nat then shift (l ++ [a]) else l ++ [a])
  = lastN BUFFER_SIZE (l ++ [a]).
Proof.
  intros H. rewrite length_app. simpl length.
  destruct (Nat.ltb_spec BUFFER_SIZE (length l + 1)) as [Hlt|Hge].
  - unfold lastN, shift. rewrite length_app. simpl length.
    replace (length l + 1 - BUFFER_SIZE)%nat with 1%nat by lia.
    destruct (l ++ [a]); reflexivity.
  - symmetry. apply lastN_short. rewrite length_app. simpl. lia.
Qed.

Lemma smoothMetric_buffer (b : SmoothingBuffer) (v c : Q) :
  wf_buffer b ->
  snd (smoothMetric b v c)
  = mkBuffer (lastN BUFFER_SIZE (values b ++ [v]))
             (lastN BUFFER_SIZE (weights b ++ [c])).
Proof.
  intros [Heq Hle]. unfold smoothMetric. cbn [snd values weights].
  rewrite <- (evict_lastN (values b) v Hle).
  rewrite <- (evict_lastN (weights b) c) by (rewrite <- Heq; exact Hle).
  rewrite !length_app, Heq. simpl length.
  destruct (BUFFER_SIZE <? length (weights b) + 1)%nat; reflexivity.
Qed.

Lemma smoothMetric_wf (b : SmoothingBuffer) (v c : Q) :
  wf_buffer b -> wf_buffer (snd (smoothMetric b v c)).
Proof.
  intros Hwf. rewrite smoothMetric_buffer by exact Hwf.
  destruct Hwf as [Heq Hle]. unfold wf_buffer. cbn [values weights].
  rewrite !length_lastN, !length_app, Heq. rewrite Heq in Hle.
  unfold BUFFER_SIZE in *. simpl length. split; lia.
Qed.

Lemma pushAll_snoc (b : SmoothingBuffer) (ps : list (Q * Q)) (p : Q * Q) :
  pushAll b (ps ++ [p]) = snd (smoothMetric (pushAll b ps) (fst p) (snd p)).
Proof. unfold pushAll. rewrite fold_left_app. reflexivity. Qed.

Lemma pushAll_wf (b : SmoothingBuffer) (ps : list (Q * Q)) :
  wf_buffer b -> wf_buffer (pushAll b ps).
Proof.
  intros Hwf. induction ps as [|p ps IH] using rev_ind.
  - exact Hwf.
  - rewrite pushAll_snoc. apply smoothMetric_wf, IH.
Qed.

Lemma emptyBuffer_wf : wf_buffer emptyBuffer.
Proof. split; simpl; [reflexivity | lia]. Qed.

(** After any sequence of pushes the buffer holds the last [BUFFER_SIZE]
    entries of what it held followed by what was pushed, oldest first. *)
Lemma pushAll_buffer (b : SmoothingBuffer) (ps : list (Q * Q)) :
  wf_buffer b ->
  pushAll b ps
  = mkBuffer (lastN BUFFER_SIZE (values b ++ map fst ps))
             (lastN BUFFER_SIZE (weights b ++ map snd ps)).
Proof.
  intros Hwf. induction ps as [|p ps IH] using rev_ind.
  - destruct Hwf as [Heq Hle]. simpl. rewrite !app_nil_r.
    rewrite !lastN_short by (rewrite <- ?Heq; exact Hle).
    destruct b; reflexivity.
  - rewrite pushAll_snoc, smoothMetric_buffer by (apply pushAll_wf, Hwf).
    rewrite IH. cbn [values weights].
    rewrite !lastN_push by (unfold BUFFER_SIZE; lia).
    rewrite !map_app, !app_assoc. reflexivity.
Qed.

Lemma pushAll_contents (ps : list (Q * Q)) :
  pushAll emptyBuffer ps
  = mkBuffer (map fst (lastN BUFFER_SIZE ps)) (map snd (lastN BUFFER_SIZE ps)).
Proof.
  rewrite pushAll_buffer by apply emptyBuffer_wf. simpl.
  rewrite !lastN_map. reflexivity.
Qed.


Lemma nth_nonneg (confs : list Q) (i : nat) :
  Forall (fun c => 0 <= c) confs -> 0 <= nth i confs 0.
Proof.
  intros H. revert i. induction H as [|c confs Hc _ IH]; intros [|i]; simpl;
    try qlra; auto.
Qed.

Lemma sampleWeight_nonneg (confs : list Q) (n i : nat) :
  Forall (fun c => 0 <= c) confs -> 0 <= sampleWeight confs n i.
Proof.
  intros H. unfold sampleWeight. apply Qmult_le_0_compat.
  - apply nth_nonneg, H.
  - apply Qpower_0_le. qlra.
Qed.

Lemma Qsum_map_nonneg {A} (f : A -> Q) (l : list A) :
  (forall a, 0 <= f a) -> 0 <= Qsum (map f l).
Proof.
  intros Hf. induction l as [|a l IH]; simpl; [qlra|].
  specialize (Hf a). qlra.
Qed.

Lemma totalWeight_nonneg (confs : list Q) :
  Forall (fun c => 0 <= c) confs -> 0 <= totalWeight confs.
Proof.
  intros H. unfold totalWeight. apply Qsum_map_nonneg.
  intros i. apply sampleWeight_nonneg, H.
Qed.

(** What one call returns, in terms of the buffer it leaves: the fallback to
    the raw value exactly when the total weight is not positive. *)
Lemma smoothMetric_result (b : SmoothingBuffer) (v c : Q) :
  wf_buffer b ->
  let r := smoothMetric b v c in
  let b' := snd r in
  (0 < totalWeight (weights b') ->
   fst r == weightedAverage (values b') (weights b')) /\
  (totalWeight (weights b') <= 0 -> fst r == v).
Proof.
  intros Hwf r b'.
  assert (Hwf' : wf_buffer b') by (apply smoothMetric_wf, Hwf).
  destruct Hwf' as [Hlen _].
  assert (Hr : fst r =
    let sums := fold_left (smoothStep 0.8 b') (seq 0 (length (values b'))) (0, 0) in
    if Qgtb (snd sums) 0 then fst sums / snd sums else v) by reflexivity.
  destruct (fold_smoothStep 0.8 b' (seq 0 (length (values b'))) (0, 0))
    as [Hws Htw].
  cbn zeta in Hr, Hws, Htw. cbn [fst snd] in Hws, Htw.
  set (sums := fold_left (smoothStep 0.8 b') (seq 0 (length (values b'))) (0, 0))
    in *.
  assert (Htw' : snd sums == totalWeight (weights b')).
  { rewrite Htw. unfold totalWeight, sampleWeight. rewrite <- Hlen. ring. }
  assert (Hws' : fst sums ==
                 Qsum (map (fun i => nth i (values b') 0
                                     * sampleWeight (weights b') (length (weights b')) i)
                           (seq 0 (length (weights b'))))).
  { rewrite Hws. unfold sampleWeight. rewrite <- Hlen. ring. }
  rewrite Hr. split; intros Htot.
  - assert (Hg : Qgtb (snd sums) 0 = true) by (apply Qgtb_gt; qlra).
    rewrite Hg. unfold weightedAverage. cbn zeta.
    rewrite Hws', Htw'. reflexivity.
  - assert (Hg : Qgtb (snd sums) 0 = false) by (apply Qgtb_le; qlra).
    rewrite Hg. reflexivity.
Qed.

(** C5: from an empty buffer, after any sequence of pushes the buffer holds
    the last five (value, confidence) pairs, oldest evicted first, and each
    call returns the average of the buffered values weighted by
    [confidence_i * 0.8^(n-1-i)], or the value just pushed when the total
    weight is zero.  Confidences are non-negative numbers. *)
Theorem smoothMetric_weighted_average (ps : list (Q * Q)) (v c : Q) :
  Forall (fun p => 0 <= snd p) (ps ++ [(v, c)]) ->
  let history := ps ++ [(v, c)] in
  let r := smoothMetric (pushAll emptyBuffer ps) v c in
  let b' := snd r in
  values b' = map fst (lastN 5 history) /\
  weights b' = map snd (lastN 5 history) /\
  (length (values b') <= 5)%nat /\
  (~ totalWeight (weights b') == 0 ->
   fst r == weightedAverage (values b') (weights b')) /\
  (totalWeight (weights b') == 0 -> fst r == v).
Proof.
  intros Hpos history r b'.
  assert (Hb : b' = pushAll emptyBuffer history).
  { unfold history. rewrite pushAll_snoc. reflexivity. }
  assert (Hwf : wf_buffer (pushAll emptyBuffer ps))
    by (apply pushAll_wf, emptyBuffer_wf).
  assert (Hc : b' = mkBuffer (map fst (lastN BUFFER_SIZE history))
                             (map snd (lastN BUFFER_SIZE history))).
  { rewrite Hb. apply pushAll_contents. }
  assert (Hnn : 0 <= totalWeight (weights b')).
  { apply totalWeight_nonneg. rewrite Hc. cbn [weights].
    apply Forall_map. unfold lastN. apply Forall_drop. exact Hpos. }
  destruct (smoothMetric_result _ v c Hwf) as [Havg Hraw].
  fold r in Havg, Hraw. fold b' in Havg, Hraw.
  split; [rewrite Hc; reflexivity|].
  split; [rewrite Hc; reflexivity|].
  split.
  { rewrite Hc. cbn [values]. rewrite length_map, length_lastN.
    unfold BUFFER_SIZE. lia. }
  split.
  - intros Hne. apply Havg.
    destruct (Qlt_le_dec 0 (totalWeight (weights b'))) as [Hlt|Hle]; [exact Hlt|].
    exfalso. apply Hne. qlra.
  - intros Hz. apply Hraw. qlra.
Qed.

(** The theorem at a history of seven pushes, one of them of confidence 0. *)
Lemma smoothMetric_weighted_average_witness :
  let ps := [(170, 1); (170, 0.9); (85, 0); (85, 0.7); (90, 1); (100, 0.6)] in
  let r := smoothMetric (pushAll emptyBuffer ps) 160 0.8 in
  values (snd r) = [85; 85; 90; 100; 160] /\
  weights (snd r) = [0; 0.7; 1; 0.6; 0.8] /\
  (length (values (snd r)) <= 5)%nat /\
  (~ totalWeight (weights (snd r)) == 0 ->
   fst r == weightedAverage (values (snd r)) (weights (snd r))) /\
  (totalWeight (weights (snd r)) == 0 -> fst r == 160).
Proof.
  apply (smoothMetric_weighted_average
           [(170, 1); (170, 0.9); (85, 0); (85, 0.7); (90, 1); (100, 0.6)]
           160 0.8).
  repeat constructor; simpl; unfold Qle; simpl; lia.
Defined.



End SmootherFacts.

(* ================================================================== *)
(** * Properties of the repetition state machine *)
(* ================================================================== *)

Module RepetitionFacts.

Import PoseAnalysis SmootherFacts.
Local Open Scope Q_scope.

Local Ltac qlra := Lqa.lra.

(** The state machine at the crossing: in state TRANSITIONING with a
    smoothed angle above [up + hysteresis] the outcome is decided by the
    debounce test and then by the duration test. *)
Lemma repStateMachine_crossing (th : Thresholds) (now : Z)
    (a : BiomechanicalAnalysis Q) (s : Q) (h : Hook) :
  repState h = TRANSITIONING ->
  up th + hysteresis th < s ->
  repStateMachine th now a s h =
    if (now - lastRepTime h <? 500)%Z then (false, h)
    else if Qltb (repDuration now h) 0.3 || Qgtb (repDuration now h) 10
    then (false, set_repState UP h)
    else (true, acceptRep now a h).
Proof.
  intros Hst Hs. unfold repStateMachine. rewrite Hst.
  apply Qgtb_gt in Hs. rewrite Hs. reflexivity.
Qed.

(** Outside the debounce window the crossing does reset the machine. *)
Lemma crossing_resets_after_debounce (th : Thresholds) (now : Z)
    (a : BiomechanicalAnalysis Q) (s : Q) (h : Hook) :
  repState h = TRANSITIONING ->
  up th + hysteresis th < s ->
  (500 <= now - lastRepTime h)%Z ->
  repState (snd (repStateMachine th now a s h)) = UP.
Proof.
  intros Hst Hs Hd. rewrite repStateMachine_crossing by assumption.
  destruct (Z.ltb_spec (now - lastRepTime h) 500); [lia|].
  destruct (Qltb (repDuration now h) 0.3 || Qgtb (repDuration now h) 10);
    reflexivity.
Qed.

(** Inside the debounce window the crossing leaves every cell as it was. *)
Lemma crossing_in_debounce_window (th : Thresholds) (now : Z)
    (a : BiomechanicalAnalysis Q) (s : Q) (h : Hook) :
  repState h = TRANSITIONING ->
  up th + hysteresis th < s ->
  (now - lastRepTime h < 500)%Z ->
  repStateMachine th now a s h = (false, h).
Proof.
  intros Hst Hs Hd. rewrite repStateMachine_crossing by assumption.
  destruct (Z.ltb_spec (now - lastRepTime h) 500); [reflexivity|lia].
Qed.

(** The other rows of the transition table. *)
Lemma step_up_stays (th : Thresholds) (now : Z) (a : BiomechanicalAnalysis Q)
    (s : Q) (h : Hook) :
  repState h = UP ->
  down th - hysteresis th <= s ->
  repStateMachine th now a s h = (false, h).
Proof.
  intros Hst Hs. unfold repStateMachine. rewrite Hst.
  apply Qltb_ge in Hs. rewrite Hs. reflexivity.
Qed.

Lemma step_up_descends (th : Thresholds) (now : Z)
    (a : BiomechanicalAnalysis Q) (s : Q) (h : Hook) :
  repState h = UP ->
  s < down th - hysteresis th ->
  repStateMachine th now a s h
  = (false, set_repStartTime now (set_repState TRANSITIONING h)).
Proof.
  intros Hst Hs. unfold repStateMachine. rewrite Hst.
  apply Qltb_lt in Hs. rewrite Hs. reflexivity.
Qed.

Lemma step_transitioning_stays (th : Thresholds) (now : Z)
    (a : BiomechanicalAnalysis Q) (s : Q) (h : Hook) :
  repState h = TRANSITIONING ->
  s <= up th + hysteresis th ->
  down th - hysteresis th * 2 <= s ->
  repStateMachine th now a s h = (false, h).
Proof.
  intros Hst Hup Hdown. unfold repStateMachine. rewrite Hst.
  apply Qgtb_le in Hup. apply Qltb_ge in Hdown. rewrite Hup, Hdown.
  reflexivity.
Qed.

(** The duration band in milliseconds. *)
Lemma duration_band (now : Z) (h : Hook) :
  Qltb (repDuration now h) 0.3 || Qgtb (repDuration now h) 10 = false
  <-> (300 <= now - repStartTime h <= 10000)%Z.
Proof.
  rewrite orb_false_iff, Qltb_ge, Qgtb_le. unfold repDuration.
  generalize (now - repStartTime h)%Z. intros d.
  unfold Qle, Qdiv, Qmult, Qinv, inject_Z. simpl. lia.
Qed.

(** C1 (the code at the failing input): in a squat session that has just
    counted a repetition, the smoothed knee angle drops below 90 and, 420 ms
    after the counted repetition, rises above up + hysteresis = 160 while
    the machine is TRANSITIONING; the step is taken inside the debounce
    window and the state afterwards is still TRANSITIONING, not UP.  The
    candidate is not dropped either: it is counted two frames later. *)
Theorem debounced_crossing_stays_transitioning :
  let th := getThresholds "agachamento" in
  let h := feed "agachamento" quickSecondRep initialHook in
  let f := squatFrame 720 180 in
  let s := fst (smoothMetric (metricBuffer h) 180 1) in
  repState h = TRANSITIONING /\
  lastRepTime h = (clock0 + 300)%Z /\
  up th + hysteresis th < s /\
  repState (analyzeFrame "agachamento" (fst f) (snd f) h) = TRANSITIONING /\
  repCountRef (analyzeFrame "agachamento" (fst f) (snd f) h) = 1%Z /\
  repCountRef (feed "agachamento"
                 [f; squatFrame 780 180; squatFrame 840 180] h) = 2%Z.
Proof. vm_compute. repeat split; reflexivity. Qed.

(** C2 as stated fails: on the sequence [170,170,85,85,85,160], 500 ms
    apart, no repetition is accepted, because the last sample 160 is not
    strictly above up + hysteresis = 160 and the machine stays
    TRANSITIONING; the same holds when the six angles are the raw knee
    angles that [detectRep] smooths itself.  With samples 4 s apart the
    candidate lasts 12 s and is discarded whatever the last angle is. *)
Lemma squat_sequence_at_160_counts_nothing :
  let a := squatAnalysis 160 1 90 in
  let t k := (clock0 + k)%Z in
  let h := feedSmoothed squatThresholds a
             (squatSamples (t 0%Z) (t 500%Z) (t 1000%Z) (t 1500%Z) (t 2000%Z)
                (t 2500%Z) 160)
             initialHook in
  let raw := feed "agachamento"
               [ squatFrame 0 170; squatFrame 500 170; squatFrame 1000 85;
                 squatFrame 1500 85; squatFrame 2000 85; squatFrame 2500 160 ]
               initialHook in
  let slow := feedSmoothed squatThresholds a
                (squatSamples (t 0%Z) (t 4000%Z) (t 8000%Z) (t 12000%Z)
                   (t 16000%Z) (t 20000%Z) 170)
                initialHook in
  (repHistory h = [] /\ repCountRef h = 0%Z /\ repState h = TRANSITIONING) /\
  (repHistory raw = [] /\ repCountRef raw = 0%Z) /\
  (repHistory slow = [] /\ repCountRef slow = 0%Z).
Proof. vm_compute. repeat split; reflexivity. Qed.

(** C2, amended: with the squat thresholds, from the initial state, the
    smoothed angles [170,170,85,85,85,last] with [last] strictly above 160,
    sampled at least 500 ms apart with the third and the sixth sample at
    most 10 s apart, each with confidence 1, yield exactly one accepted
    repetition, of duration (t6 - t3) / 1000 seconds. *)
Theorem squat_sequence_one_rep (t1 t2 t3 t4 t5 t6 : Z) (last : Q)
    (a : BiomechanicalAnalysis Q) :
  confidence a = 1 ->
  (0 <= t1)%Z ->
  (t1 + 500 <= t2)%Z -> (t2 + 500 <= t3)%Z -> (t3 + 500 <= t4)%Z ->
  (t4 + 500 <= t5)%Z -> (t5 + 500 <= t6)%Z ->
  (t6 - t3 <= 10000)%Z ->
  160 < last ->
  let h := feedSmoothed squatThresholds a
             (squatSamples t1 t2 t3 t4 t5 t6 last) initialHook in
  repCountRef h = 1%Z /\
  repHistory h = [mkRepData 1 (inject_Z (t6 - t3) / 1000) (quality a) t6 1] /\
  repState h = UP.
Proof.
  intros Hc H1 H12 H23 H34 H45 H56 Hmax Hlast h. subst h.
  unfold feedSmoothed, squatSamples. cbn [fold_left fst snd].
  rewrite (step_up_stays squatThresholds t1) by (reflexivity || (simpl; qlra)).
  cbn [countRep fst snd].
  rewrite (step_up_stays squatThresholds t2) by (reflexivity || (simpl; qlra)).
  cbn [countRep fst snd].
  rewrite (step_up_descends squatThresholds t3)
    by (reflexivity || (simpl; qlra)).
  cbn [countRep fst snd].
  rewrite (step_transitioning_stays squatThresholds t4)
    by (reflexivity || (simpl; qlra)).
  cbn [countRep fst snd].
  rewrite (step_transitioning_stays squatThresholds t5)
    by (reflexivity || (simpl; qlra)).
  cbn [countRep fst snd].
  rewrite (repStateMachine_crossing squatThresholds t6)
    by (reflexivity || (simpl; qlra)).
  cbn [lastRepTime set_repStartTime set_repState initialHook].
  destruct (Z.ltb_spec (t6 - 0) 500) as [Hlt|_]; [lia|].
  rewrite (proj2 (duration_band t6 _)) by (simpl; lia).
  cbn [countRep fst snd acceptRep]. simpl. rewrite Hc.
  repeat split; reflexivity.
Qed.

(** The amended C2 at samples 600 ms apart and a last angle of 165. *)
Lemma squat_sequence_one_rep_witness :
  let t k := (clock0 + k)%Z in
  let h := feedSmoothed squatThresholds (squatAnalysis 165 1 90)
             (squatSamples (t 0%Z) (t 600%Z) (t 1200%Z) (t 1800%Z) (t 2400%Z)
                (t 3000%Z) 165)
             initialHook in
  repCountRef h = 1%Z /\
  repHistory h = [mkRepData 1 (inject_Z (t 3000%Z - t 1200%Z) / 1000) 90 (t 3000%Z) 1] /\
  repState h = UP.
Proof.
  apply (squat_sequence_one_rep (clock0 + 0) (clock0 + 600) (clock0 + 1200)
           (clock0 + 1800) (clock0 + 2400) (clock0 + 3000) 165
           (squatAnalysis 165 1 90));
    try reflexivity; unfold clock0; lia.
Defined.

(** [detectRep] returns [true] only through the accepting path. *)
Lemma repStateMachine_true (th : Thresholds) (now : Z)
    (a : BiomechanicalAnalysis Q) (s : Q) (h : Hook) :
  fst (repStateMachine th now a s h) = true ->
  snd (repStateMachine th now a s h) = acceptRep now a h.
Proof.
  unfold repStateMachine.
  repeat match goal with
         | |- context [if ?c then _ else _] => destruct c
         end; cbn [fst snd]; congruence.
Qed.

(** When it returns [false], the count, the history, the sums and the time
    of the last repetition are as before. *)
Lemma repStateMachine_false (th : Thresholds) (now : Z)
    (a : BiomechanicalAnalysis Q) (s : Q) (h : Hook) :
  fst (repStateMachine th now a s h) = false ->
  let h' := snd (repStateMachine th now a s h) in
  repCountRef h' = repCountRef h /\ repHistory h' = repHistory h /\
  qualitySum h' = qualitySum h /\ confidenceSum h' = confidenceSum h /\
  lastRepTime h' = lastRepTime h /\ metricBuffer h' = metricBuffer h.
Proof.
  unfold repStateMachine.
  repeat match goal with
         | |- context [if ?c then _ else _] => destruct c
         end; cbn [fst snd]; intros H; try discriminate H;
    repeat split; reflexivity.
Qed.

(** C3: at the TRANSITIONING -> UP crossing (valid analysis, state
    TRANSITIONING, smoothed angle above up + hysteresis) the candidate is
    counted if and only if the confidence of the analysis is at least 0.5,
    at least 500 ms have passed since the last accepted repetition and the
    duration lies in [0.3 s, 10 s]; a confidence below 0.5 returns before
    any cell is written; exactly when the candidate is counted, [repCount]
    grows by one in [analyze], a [RepData] record is appended, both sums
    are updated and [lastRepTime] becomes the clock reading. *)
Theorem rep_counted_iff (selectedExercise : string) (now : Z)
    (a : BiomechanicalAnalysis Q) (h : Hook) :
  isValid a = true ->
  repState h = TRANSITIONING ->
  let pa := getPrimaryAngle selectedExercise a in
  let s := fst (smoothMetric (metricBuffer h) (fst pa) (snd pa)) in
  let th := getThresholds selectedExercise in
  up th + hysteresis th < s ->
  let d := repDuration now h in
  let r := detectRep selectedExercise now a h in
  let h' := countRep r in
  (fst r = true <->
   0.5 <= confidence a /\ (500 <= now - lastRepTime h)%Z /\ 0.3 <= d <= 10) /\
  (confidence a < 0.5 -> r = (false, h)) /\
  (fst r = true ->
   repCountRef h' = (repCountRef h + 1)%Z /\
   repCount h' = (repCountRef h + 1)%Z /\
   repHistory h' = repHistory h ++
     [mkRepData (repCountRef h + 1) d (quality a) now (confidence a)] /\
   qualitySum h' = qualitySum h + quality a /\
   confidenceSum h' = confidenceSum h + confidence a /\
   lastRepTime h' = now /\
   repState h' = UP) /\
  (fst r = false ->
   repCountRef h' = repCountRef h /\ repHistory h' = repHistory h /\
   qualitySum h' = qualitySum h /\ confidenceSum h' = confidenceSum h /\
   lastRepTime h' = lastRepTime h).
Proof.
  intros Hv Hst pa s th Hs d r h'.
  assert (Hlow : confidence a < 0.5 -> r = (false, h)).
  { intros Hc. unfold r, detectRep. rewrite Hv. cbn [negb].
    apply Qltb_lt in Hc. unfold MIN_CONFIDENCE_THRESHOLD. rewrite Hc.
    reflexivity. }
  assert (Hr : 0.5 <= confidence a ->
               r = repStateMachine th now a s
                     (set_metricBuffer (snd (smoothMetric (metricBuffer h)
                                                (fst pa) (snd pa))) h)).
  { intros Hc. unfold r, detectRep. rewrite Hv. cbn [negb].
    apply Qltb_ge in Hc. unfold MIN_CONFIDENCE_THRESHOLD. rewrite Hc.
    reflexivity. }
  split; [|split; [exact Hlow|split]].
  - destruct (Qlt_le_dec (confidence a) 0.5) as [Hc|Hc].
    + rewrite (Hlow Hc). cbn [fst]. split; [discriminate|].
      intros [Hc' _]. qlra.
    + rewrite (Hr Hc), repStateMachine_crossing by assumption.
      cbn [lastRepTime set_metricBuffer].
      change (repDuration now (set_metricBuffer _ h)) with d.
      pose proof (duration_band now h) as Hband. fold d in Hband.
      destruct (Z.ltb_spec (now - lastRepTime h) 500) as [Hd|Hd]; cbn [fst].
      * split; [discriminate|]. intros (_ & Hd' & _). lia.
      * destruct (Qltb d 0.3 || Qgtb d 10) eqn:Hdur; cbn [fst].
        -- split; [discriminate|]. intros (_ & _ & Hlo & Hhi).
           apply Qltb_ge in Hlo. apply Qgtb_le in Hhi.
           rewrite Hlo, Hhi in Hdur. discriminate Hdur.
        -- apply orb_false_iff in Hdur. destruct Hdur as [Hlo Hhi].
           apply Qltb_ge in Hlo. apply Qgtb_le in Hhi.
           split; [|reflexivity]. intros _. repeat split; assumption.
  - intros Ht.
    destruct (Qlt_le_dec (confidence a) 0.5) as [Hc|Hc];
      [rewrite (Hlow Hc) in Ht; discriminate Ht|].
    unfold h'. rewrite (Hr Hc) in Ht |- *.
    pose proof (repStateMachine_true _ _ _ _ _ Ht) as Hacc.
    unfold countRep. rewrite Ht, Hacc. cbn. repeat split; reflexivity.
  - intros Hf.
    destruct (Qlt_le_dec (confidence a) 0.5) as [Hc|Hc].
    + unfold h'. rewrite (Hlow Hc). cbn. repeat split; reflexivity.
    + unfold h'. rewrite (Hr Hc) in Hf |- *.
      pose proof (repStateMachine_false _ _ _ _ _ Hf) as Hsame.
      cbn zeta in Hsame. unfold countRep. rewrite Hf.
      destruct Hsame as (H1 & H2 & H3 & H4 & H5 & _).
      rewrite H1, H2, H3, H4, H5. cbn. repeat split; reflexivity.
Qed.

(** C3 at the eleventh frame of the session [quickSecondRep], taken 540 ms
    after the counted repetition: the crossing is counted. *)
Lemma rep_counted_iff_witness :
  let h := feed "agachamento" (quickSecondRep ++ [squatFrame 720 180])
             initialHook in
  let f := squatFrame 840 180 in
  fst (detectRep "agachamento" (fst f) (snd f) h) = true /\
  repCountRef (countRep (detectRep "agachamento" (fst f) (snd f) h)) = 2%Z.
Proof.
  intros h f.
  assert (Hv : isValid (snd f) = true) by reflexivity.
  assert (Hst : repState h = TRANSITIONING) by (vm_compute; reflexivity).
  assert (Hs : up (getThresholds "agachamento")
               + hysteresis (getThresholds "agachamento")
               < fst (smoothMetric (metricBuffer h)
                        (fst (getPrimaryAngle "agachamento" (snd f)))
                        (snd (getPrimaryAngle "agachamento" (snd f)))))
    by (vm_compute; reflexivity).
  destruct (rep_counted_iff "agachamento" (fst f) (snd f) h Hv Hst Hs)
    as (Hiff & _ & Hacc & _).
  assert (Ht : fst (detectRep "agachamento" (fst f) (snd f) h) = true).
  { apply Hiff. vm_compute. repeat split; discriminate. }
  split; [exact Ht|]. destruct (Hacc Ht) as (Hcount & _).
  rewrite Hcount. vm_compute. reflexivity.
Defined.

End RepetitionFacts.

(* ================================================================== *)
(** * Properties of the geometry primitives *)
(* ================================================================== *)

Module GeometryFacts.

Import Geometry.
Local Open Scope R_scope.

Local Ltac rlra := Lra.lra.
Local Ltac rnra := Lra.nra.





Lemma Rleb_true (a b : R) : a <= b -> Rleb a b = true.
Proof. intros H. unfold Rleb. destruct (Rle_dec a b); [reflexivity|rlra]. Qed.

Lemma Rleb_false (a b : R) : b < a -> Rleb a b = false.
Proof. intros H. unfold Rleb. destruct (Rle_dec a b); [rlra|reflexivity]. Qed.

Lemma Rgeb_true (a b : R) : b <= a -> Rgeb a b = true.
Proof. apply Rleb_true. Qed.

Lemma Rgeb_false (a b : R) : a < b -> Rgeb a b = false.
Proof. apply Rleb_false. Qed.

Lemma Reqb_true (a b : R) : a = b -> Reqb a b = true.
Proof. intros H. unfold Reqb. destruct (Req_dec_T a b); [reflexivity|contradiction]. Qed.

Lemma Reqb_false (a b : R) : a <> b -> Reqb a b = false.
Proof. intros H. unfold Reqb. destruct (Req_dec_T a b); [contradiction|reflexivity]. Qed.

Lemma Reqb_eq (a b : R) : Reqb a b = true <-> a = b.
Proof.
  unfold Reqb. destruct (Req_dec_T a b); split; intros; congruence.
Qed.

(** The sum of squares under the root of [magnitude] is never negative. *)
Lemma Math_sqrt_squares (a b c : R) :
  Math_sqrt (a * a + b * b + c * c) = Some (sqrt (a * a + b * b + c * c)).
Proof. unfold Math_sqrt. rewrite Rleb_true by rnra. reflexivity. Qed.

Lemma magnitude_Some (v : Vector3D) :
  magnitude v = Some (sqrt (vx v * vx v + vy v * vy v + vz v * vz v)).
Proof. apply Math_sqrt_squares. Qed.

Lemma magnitude_nonneg (v : Vector3D) (m : R) : magnitude v = Some m -> 0 <= m.
Proof. rewrite magnitude_Some. intros [= <-]. apply sqrt_pos. Qed.

Lemma div_Some (a b : R) : b <> 0 -> div a b = Some (a / b).
Proof. intros H. unfold div. rewrite Reqb_false by exact H. reflexivity. Qed.

Lemma clamp_unit (r : R) : -1 <= Rmax (-1) (Rmin 1 r) <= 1.
Proof.
  unfold Rmax, Rmin.
  destruct (Rle_dec 1 r); destruct (Rle_dec (-1) _); rlra.
Qed.

Lemma Math_acos_Some (r : R) : -1 <= r <= 1 -> Math_acos r = Some (acos r).
Proof.
  intros [H1 H2]. unfold Math_acos.
  rewrite !Rleb_true by assumption. reflexivity.
Qed.

(** Radians in [0, PI] are degrees in [0, 180]. *)
Lemma degrees_bound (r : R) : 0 <= r <= PI -> 0 <= r * (180 / PI) <= 180.
Proof.
  intros [H0 H1]. pose proof PI_RGT_0 as Hpi.
  assert (Hk : 0 < 180 / PI) by (apply Rdiv_lt_0_compat; rlra).
  split.
  - apply Rmult_le_pos; rlra.
  - replace 180 with (PI * (180 / PI)) at 2 by (field; rlra).
    apply Rmult_le_compat_r; rlra.
Qed.

(** What [calculateAngle] computes, case by case. *)
Lemma calculateAngle_cases (a b c : Point) :
  let ba := subtractVectors (toVector3D a) (toVector3D b) in
  let bc := subtractVectors (toVector3D c) (toVector3D b) in
  let magBA := sqrt (vx ba * vx ba + vy ba * vy ba + vz ba * vz ba) in
  let magBC := sqrt (vx bc * vx bc + vy bc * vy bc + vz bc * vz bc) in
  calculateAngle a b c =
    if Reqb magBA 0 || Reqb magBC 0 then Some 0
    else Some (acos (Rmax (-1) (Rmin 1 (dotProduct ba bc / (magBA * magBC))))
               * (180 / PI)).
Proof.
  intros ba bc magBA magBC. unfold calculateAngle.
  fold ba bc. rewrite !magnitude_Some. fold magBA magBC. cbn [mbind option_bind].
  destruct (Reqb magBA 0) eqn:EA; [reflexivity|].
  destruct (Reqb magBC 0) eqn:EC; [reflexivity|]. cbn [orb].
  assert (HA : magBA <> 0) by (intros H; apply Reqb_eq in H; congruence).
  assert (HC : magBC <> 0) by (intros H; apply Reqb_eq in H; congruence).
  rewrite div_Some by (apply Rmult_integral_contrapositive; split; assumption).
  cbn [mbind option_bind].
  rewrite Math_acos_Some by apply clamp_unit. reflexivity.
Qed.

Lemma calculateAngle_total (a b c : Point) : is_Some (calculateAngle a b c).
Proof.
  rewrite calculateAngle_cases. cbn zeta.
  destruct (Reqb _ 0 || Reqb _ 0); eexists; reflexivity.
Qed.


(** What [pointToLineDistance] computes, case by case. *)
Lemma pointToLineDistance_cases (p a b : Point) :
  let ab := subtractVectors (toVector3D b) (toVector3D a) in
  let ap := subtractVectors (toVector3D p) (toVector3D a) in
  let cross := crossProduct ab ap in
  let norm v := sqrt (vx v * vx v + vy v * vy v + vz v * vz v) in
  pointToLineDistance p a b =
    if Reqb (norm ab) 0 then Some (norm ap) else Some (norm cross / norm ab).
Proof.
  intros ab ap cross norm. unfold pointToLineDistance.
  fold ab ap. fold cross. rewrite !magnitude_Some. cbn [mbind option_bind].
  fold (norm ab) (norm cross) (norm ap).
  destruct (Reqb (norm ab) 0) eqn:E; [reflexivity|].
  apply div_Some. intros H. apply Reqb_eq in H. congruence.
Qed.

Lemma pointToLineDistance_total (p a b : Point) :
  is_Some (pointToLineDistance p a b).
Proof.
  rewrite pointToLineDistance_cases. cbn zeta.
  destruct (Reqb _ 0); eexists; reflexivity.
Qed.

(** C9: degenerate inputs give defined values.  [calculateAngle] returns 0
    when one of the two vectors from the vertex has magnitude zero;
    [pointToLineDistance p a b] with [a] and [b] at the same position
    returns the distance from [p] to [a]; and both functions always return
    a number, so no division by zero is reached. *)
Theorem degenerate_geometry_defined :
  (forall a b c : Point,
      magnitude (subtractVectors (toVector3D a) (toVector3D b)) = Some 0 \/
      magnitude (subtractVectors (toVector3D c) (toVector3D b)) = Some 0 ->
      calculateAngle a b c = Some 0) /\
  (forall p a b : Point,
      toVector3D a = toVector3D b ->
      exists d, calculateDistance p a = Some d /\
                pointToLineDistance p a b = Some d) /\
  (forall a b c : Point, is_Some (calculateAngle a b c)) /\
  (forall p a b : Point, is_Some (pointToLineDistance p a b)).
Proof.
  split; [|split; [|split]].
  - intros a b c H. rewrite calculateAngle_cases. cbn zeta.
    rewrite !magnitude_Some in H.
    cbn [vx vy vz subtractVectors toVector3D] in *.
    destruct H as [[= H]|[= H]]; rewrite H, (Reqb_true 0 0) by reflexivity;
      [reflexivity | rewrite orb_true_r; reflexivity].
  - intros p a b Hab. rewrite pointToLineDistance_cases. cbn zeta.
    rewrite <- Hab. unfold calculateDistance.
    rewrite Math_sqrt_squares. eexists. split; [reflexivity|].
    rewrite Reqb_true.
    + reflexivity.
    + replace (vx _ * vx _ + vy _ * vy _ + vz _ * vz _) with 0
        by (cbn; ring).
      apply sqrt_0.
  - apply calculateAngle_total.
  - apply pointToLineDistance_total.
Qed.

(** C9 at concrete points: a vertex that coincides with the first point,
    and a line given by the same point twice. *)
Lemma degenerate_geometry_defined_witness :
  let p := mkPoint (1 / 2) (1 / 4) None (Some 1) in
  let q := mkPoint (3 / 4) (1 / 4) (Some (1 / 10)) None in
  calculateAngle p p q = Some 0 /\
  exists d, calculateDistance q p = Some d /\ pointToLineDistance q p p = Some d.
Proof.
  intros p q. destruct degenerate_geometry_defined as (Hangle & Hline & _).
  split.
  - apply Hangle. left. rewrite magnitude_Some. f_equal.
    replace (vx _ * vx _ + vy _ * vy _ + vz _ * vz _) with 0 by (cbn; ring).
    apply sqrt_0.
  - apply Hline. reflexivity.
Defined.

(** ** Numeric bounds for one concrete angle *)










End GeometryFacts.

(* ================================================================== *)
(** * Properties of the exercise analyzers *)
(* ================================================================== *)

Module AnalyzerFacts.

Import Strings Geometry GeometryFacts.
Local Open Scope R_scope.

Local Ltac rlra := Lra.lra.
Local Ltac rnra := Lra.nra.

(** ** Validation of the required landmarks *)

Lemma validate_true_lookup (landmarks : list Point) (indices : list nat)
    (i : nat) :
  validateLandmarks landmarks indices = true ->
  In i indices ->
  exists p, landmarks !! i = Some p /\ 0.5 <= orElse (visibility p) 1.
Proof.
  intros Hv Hi. unfold validateLandmarks in Hv.
  rewrite forallb_forall in Hv. specialize (Hv i Hi).
  destruct (landmarks !! i) as [p|]; [|discriminate Hv].
  exists p. split; [reflexivity|].
  unfold isVisible, Rgeb, Rleb in Hv.
  destruct (Rle_dec 0.5 (orElse (visibility p) 1)); [assumption|discriminate Hv].
Qed.

Lemma validate_false (landmarks : list Point) (indices : list nat) :
  (exists i, In i indices /\ notVisible landmarks i) ->
  validateLandmarks landmarks indices = false.
Proof.
  intros (i & Hi & Hnv).
  destruct (validateLandmarks landmarks indices) eqn:Hv; [|reflexivity].
  destruct (validate_true_lookup _ _ i Hv Hi) as (p & Hp & Hvis).
  destruct Hnv as [Hnone|(p' & v & Hp' & Hv' & Hlow)].
  - congruence.
  - rewrite Hp in Hp'. injection Hp' as <-.
    rewrite Hv' in Hvis. cbn in Hvis. rlra.
Qed.

(** C6: when a required landmark of an analyzer is absent or has a
    visibility below 0.5, the analyzer returns a record (it does not fail)
    with isValid = false, quality 0, confidence 0, no metrics and the
    positioning instruction as its only feedback string. *)
Theorem not_evaluable_frame (landmarks : list Point) :
  ((exists i, In i backRowPoints /\ notVisible landmarks i) ->
   analyzeBackRow landmarks
   = Some (mkAnalysis ["Posicione-se de lado para a câmera"] ∅ rest false 0 0))
  /\
  ((exists i, In i squatPoints /\ notVisible landmarks i) ->
   analyzeSquat landmarks
   = Some (mkAnalysis ["Posicione-se de frente ou de costas para a câmera"]
             ∅ rest false 0 0))
  /\
  ((exists i, In i pushUpPoints /\ notVisible landmarks i) ->
   analyzePushUp landmarks
   = Some (mkAnalysis ["Posicione-se de lado para a câmera"] ∅ rest false 0 0)).
Proof.
  repeat split; intros H; apply validate_false in H.
  - unfold analyzeBackRow. rewrite H. reflexivity.
  - unfold analyzeSquat. rewrite H. reflexivity.
  - unfold analyzePushUp. rewrite H. reflexivity.
Qed.

(** ** The average confidence *)

Lemma filter_present_all (landmarks : list Point) (indices : list nat) :
  (forall i, In i indices -> exists p, landmarks !! i = Some p) ->
  List.filter (present landmarks) indices = indices.
Proof.
  induction indices as [|i l IH]; intros H; [reflexivity|].
  simpl. destruct (H i (or_introl eq_refl)) as (p & Hp).
  unfold present at 1. rewrite Hp. f_equal. apply IH.
  intros j Hj. apply H. right. exact Hj.
Qed.

Lemma visibility_sum_bounds (landmarks : list Point) (indices : list nat)
    (s0 : R) :
  (forall i, In i indices ->
     exists p, landmarks !! i = Some p /\ 0 <= orElse (visibility p) 1 <= 1) ->
  exists s,
    fold_left (fun acc i =>
                 s ← acc; p ← landmarks !! i;
                 Some (s + orElse (visibility p) 1))
      indices (Some s0) = Some s /\
    s0 <= s <= s0 + INR (length indices).
Proof.
  revert s0. induction indices as [|i l IH]; intros s0 H.
  - exists s0. simpl. split; [reflexivity|rlra].
  - destruct (H i (or_introl eq_refl)) as (p & Hp & Hvis).
    cbn [fold_left]. rewrite Hp. cbn [mbind option_bind].
    destruct (IH (s0 + orElse (visibility p) 1)) as (s & Hs & Hb).
    { intros j Hj. apply H. right. exact Hj. }
    exists s. split; [exact Hs|].
    change (length (i :: l)) with (S (length l)). rewrite S_INR. rlra.
Qed.

Lemma getAverageConfidence_bounds (landmarks : list Point)
    (indices : list nat) :
  (forall i, In i indices ->
     exists p, landmarks !! i = Some p /\ 0 <= orElse (visibility p) 1 <= 1) ->
  exists c, getAverageConfidence landmarks indices = Some c /\ 0 <= c <= 1.
Proof.
  intros H. unfold getAverageConfidence.
  rewrite filter_present_all
    by (intros i Hi; destruct (H i Hi) as (p & Hp & _); eauto).
  destruct indices as [|i l] eqn:E.
  - exists 0. split; [reflexivity|rlra].
  - rewrite <- E in *. assert (Hlen : (0 < length indices)%nat)
      by (rewrite E; simpl; lia).
    replace (length indices =? 0)%nat with false
      by (symmetry; apply Nat.eqb_neq; lia).
    destruct (visibility_sum_bounds landmarks indices 0 H) as (s & Hs & Hb).
    rewrite Hs. cbn [mbind option_bind].
    assert (Hn : 0 < INR (length indices)) by (apply lt_0_INR; exact Hlen).
    rewrite div_Some by rlra.
    eexists. split; [reflexivity|]. split.
    + apply Rmult_le_pos; [rlra|]. apply Rlt_le, Rinv_0_lt_compat, Hn.
    + apply Rmult_le_reg_r with (INR (length indices)); [exact Hn|].
      unfold Rdiv. rewrite Rmult_assoc, Rinv_l by rlra. rlra.
Qed.

(** ** Scores and penalties *)

Lemma Rsum_snoc (l : list R) (r : R) : Rsum (l ++ [r]) = Rsum l + r.
Proof. induction l as [|a l IH]; simpl; [ring|]. rewrite IH. ring. Qed.

Lemma Math_round_IZR (k : Z) : Math_round (IZR k) = IZR k.
Proof. unfold Math_round. f_equal. apply Zfloor_eq. rlra. Qed.

Lemma Rmin_IZR (a b : Z) : Rmin (IZR a) (IZR b) = IZR (Z.min a b).
Proof.
  destruct (Z.le_ge_cases a b) as [H|H].
  - rewrite Z.min_l by exact H. apply Rmin_left, IZR_le, H.
  - rewrite Z.min_r by exact H. apply Rmin_right, IZR_le, H.
Qed.

Lemma accounted_start (pen : string -> R) : accounted pen (mkAssessment [] 100).
Proof.
  split; [exists 100%Z; reflexivity|]. split; [simpl; ring|constructor].
Qed.

Lemma accounted_say (pen : string -> R) (msg : string) (a : Assessment) :
  pen msg = 0 -> accounted pen a -> accounted pen (say msg a).
Proof.
  intros Hp (Hk & Hs & Hf). unfold accounted, say. simpl.
  split; [exact Hk|]. split.
  - rewrite map_app. cbn [map]. rewrite Rsum_snoc, Hp, Hs. ring.
  - apply Forall_app. split; [exact Hf|]. constructor; [left; exact Hp|constructor].
Qed.

Lemma accounted_penalize (pen : string -> R) (msg : string) (k : Z)
    (a : Assessment) :
  pen msg = IZR k -> (8 <= k <= 20)%Z -> accounted pen a ->
  accounted pen (penalize (IZR k) (say msg a)).
Proof.
  intros Hp Hb ((j & Hj) & Hs & Hf). unfold penalize, say. cbn [notes score].
  split; [|split].
  - exists (j - k)%Z. simpl. rewrite Hj, minus_IZR. reflexivity.
  - simpl. rewrite map_app. cbn [map]. rewrite Rsum_snoc, Hp, Hs. ring.
  - apply Forall_app. split; [exact Hf|]. constructor; [|constructor].
    right. rewrite Hp. split; apply IZR_le; lia.
Qed.

Lemma Rsum_penalties_nonneg (pen : string -> R) (l : list string) :
  Forall (fun msg => pen msg = 0 \/ 8 <= pen msg <= 20) l ->
  0 <= Rsum (map pen l).
Proof.
  induction 1 as [|msg l [H|H] _ IH]; simpl; rlra.
Qed.

(** The record returned for an accounted assessment is scored. *)
Lemma evaluated_scored (a : Assessment) (m : gmap string R) (ph : Phase)
    (conf : R) :
  accounted (penaltyOf m) a -> scored (evaluated a m ph conf).
Proof.
  intros ((k & Hk) & Hs & Hf). unfold scored, evaluated.
  cbn [quality metrics feedback].
  assert (Hq : Rmax 0 (Math_round (score a))
               = Rmax 0 (100 - Rsum (map (penaltyOf m) (notes a)))).
  { rewrite Hk, Math_round_IZR, <- Hk, Hs. reflexivity. }
  split; [exact Hq|]. split; [exact Hf|].
  rewrite Hq. pose proof (Rsum_penalties_nonneg _ _ Hf) as Hn.
  split; [apply Rmax_l|]. apply Rmax_lub; rlra.
Qed.

Lemma penaltyOf_fixed (m : gmap string R) (msg : string) :
  String.eqb msg asymmetryMessage = false ->
  penaltyOf m msg = IZR (fixedPenalty msg).
Proof. intros H. unfold penaltyOf. rewrite H. reflexivity. Qed.

(** The asymmetry penalty, when the rule fires, is an integer from 8 to 20. *)
Lemma asymmetry_penalty (asymmetry : R) :
  15 < asymmetry ->
  exists k : Z,
    Rmin 20 (Math_round (asymmetry * 0.5)) = IZR k /\ (8 <= k <= 20)%Z.
Proof.
  intros H. exists (Z.min 20 (Zfloor (asymmetry * 0.5 + / 2))).
  split.
  - unfold Math_round. apply (Rmin_IZR 20).
  - assert (8 <= Zfloor (asymmetry * 0.5 + / 2))%Z
      by (apply Zfloor_lub; rlra).
    lia.
Qed.


(** ** The analyzers on an evaluable frame *)

Lemma visibility_sum_total (landmarks : list Point) (indices : list nat)
    (s0 : R) :
  (forall i, In i indices -> exists p, landmarks !! i = Some p) ->
  is_Some (fold_left (fun acc i =>
                        s ← acc; p ← landmarks !! i;
                        Some (s + orElse (visibility p) 1))
             indices (Some s0)).
Proof.
  revert s0. induction indices as [|i l IH]; intros s0 H.
  - eexists. reflexivity.
  - destruct (H i (or_introl eq_refl)) as (p & Hp).
    cbn [fold_left]. rewrite Hp. cbn [mbind option_bind].
    apply IH. intros j Hj. apply H. right. exact Hj.
Qed.

Lemma getAverageConfidence_total (landmarks : list Point)
    (indices : list nat) :
  validateLandmarks landmarks indices = true ->
  is_Some (getAverageConfidence landmarks indices).
Proof.
  intros Hv.
  assert (H : forall i, In i indices -> exists p, landmarks !! i = Some p).
  { intros i Hi. destruct (validate_true_lookup _ _ i Hv Hi) as (p & Hp & _).
    eauto. }
  unfold getAverageConfidence. rewrite filter_present_all by exact H.
  destruct (Nat.eqb_spec (length indices) 0) as [_|Hn]; [eexists; reflexivity|].
  destruct (visibility_sum_total landmarks indices 0 H) as (s & Hs).
  rewrite Hs. cbn [mbind option_bind].
  rewrite div_Some by (apply not_0_INR; exact Hn). eexists. reflexivity.
Qed.

Lemma calculateDistance2D_Some (a b : Point) :
  calculateDistance2D a b
  = Some (sqrt ((x a - x b) * (x a - x b) + (y a - y b) * (y a - y b))).
Proof.
  unfold calculateDistance2D, Math_sqrt. cbn zeta.
  pose proof (Rle_0_sqr (x a - x b)) as Hx.
  pose proof (Rle_0_sqr (y a - y b)) as Hy. unfold Rsqr in Hx, Hy.
  rewrite Rleb_true by rlra. reflexivity.
Qed.

Lemma calculateWeightedAngle_total (a b c : Point) :
  exists theta conf, calculateWeightedAngle a b c = Some (theta, conf).
Proof.
  unfold calculateWeightedAngle.
  destruct (calculateAngle_total a b c) as (theta & H).
  rewrite H. eexists _, _. reflexivity.
Qed.

(** Resolves the goal [accounted pen a] for an assessment [a] built by the
    rule chain of an analyzer, given the penalty of each message. *)
Local Ltac fixed_penalty :=
  rewrite penaltyOf_fixed by reflexivity; reflexivity.

Lemma Rgtb_lt (a b : R) : Rgtb a b = true -> b < a.
Proof.
  unfold Rgtb, Rltb. destruct (Rlt_dec b a); [tauto|discriminate].
Qed.

Local Ltac account :=
  repeat first
    [ apply accounted_start
    | apply accounted_penalize; [fixed_penalty | lia | ]
    | apply accounted_say; [fixed_penalty | ]
    | match goal with
      | |- accounted _ (if ?c then _ else _) => destruct c eqn:?
      | Hfired : Rgtb ?a 15 = true,
        Hrule : 15 < ?a -> exists k : Z, _
        |- accounted _ (penalize (Rmin 20 _) (say _ _)) =>
          let k := fresh "k" in
          let Hp := fresh "Hp" in
          let Hk := fresh "Hk" in
          let Hb := fresh "Hb" in
          destruct (Hrule (Rgtb_lt _ _ Hfired)) as (k & Hp & Hk & Hb);
          rewrite Hk; apply accounted_penalize; [exact Hp | exact Hb | ]
      end ].

Lemma analyzeSquat_evaluable (landmarks : list Point) :
  validateLandmarks landmarks squatPoints = true ->
  exists r conf,
    analyzeSquat landmarks = Some r /\ isValid r = true /\ scored r /\
    getAverageConfidence landmarks squatPoints = Some conf /\
    confidence r = conf.
Proof.
  intros Hv. unfold analyzeSquat. rewrite Hv. cbn [negb].
  destruct (validate_true_lookup _ _ 11%nat Hv) as (shoulder & -> & _);
    [unfold squatPoints; simpl; tauto|].
  destruct (validate_true_lookup _ _ 23%nat Hv) as (hipL & -> & _);
    [unfold squatPoints; simpl; tauto|].
  destruct (validate_true_lookup _ _ 24%nat Hv) as (hipR & -> & _);
    [unfold squatPoints; simpl; tauto|].
  destruct (validate_true_lookup _ _ 25%nat Hv) as (kneeL & -> & _);
    [unfold squatPoints; simpl; tauto|].
  destruct (validate_true_lookup _ _ 26%nat Hv) as (kneeR & -> & _);
    [unfold squatPoints; simpl; tauto|].
  destruct (validate_true_lookup _ _ 27%nat Hv) as (ankleL & -> & _);
    [unfold squatPoints; simpl; tauto|].
  destruct (validate_true_lookup _ _ 28%nat Hv) as (ankleR & -> & _);
    [unfold squatPoints; simpl; tauto|].
  destruct (getAverageConfidence_total _ _ Hv) as (conf & ->).
  cbn [mbind option_bind].
  destruct (calculateWeightedAngle_total hipL kneeL ankleL)
    as (kneeAngle & kneeConf & ->).
  cbn [mbind option_bind fst snd].
  destruct (calculateAngle_total shoulder hipL kneeL) as (torsoAngle & ->).
  cbn [mbind option_bind].
  rewrite calculateDistance2D_Some.
  cbn [mbind option_bind].
  rewrite div_Some
    by (pose proof (Rmax_r (sqrt ((x kneeL - x ankleL) * (x kneeL - x ankleL)
                                  + (y kneeL - y ankleL) * (y kneeL - y ankleL)))
                      0.01); rlra).
  cbn [mbind option_bind].
  destruct (calculateAngle_total hipR kneeR ankleR) as (kneeAngleR & ->).
  cbn [mbind option_bind].
  eexists _, conf. split; [reflexivity|]. split; [reflexivity|].
  split; [|split; reflexivity].
  apply evaluated_scored.
  set (asymmetry := Rabs (kneeAngle - kneeAngleR)).
  set (m := <["lateralShift" := _]> _).
  assert (Hm : m !! "legAsymmetry" = Some asymmetry).
  { unfold m. rewrite lookup_insert_ne by discriminate.
    apply lookup_insert_eq. }
  assert (Hrule : 15 < asymmetry ->
                  exists k : Z,
                    penaltyOf m asymmetryMessage = IZR k /\
                    Rmin 20 (Math_round (asymmetry * 0.5)) = IZR k /\
                    (8 <= k <= 20)%Z).
  { intros Hfired.
    destruct (asymmetry_penalty asymmetry Hfired) as (k & Hk & Hb).
    exists k. split; [|split; assumption].
    unfold penaltyOf. rewrite Hm. exact Hk. }
  clearbody m asymmetry.
  account.
Qed.

Lemma analyzeBackRow_evaluable (landmarks : list Point) :
  validateLandmarks landmarks backRowPoints = true ->
  exists r conf,
    analyzeBackRow landmarks = Some r /\ isValid r = true /\ scored r /\
    getAverageConfidence landmarks backRowPoints = Some conf /\
    confidence r = conf.
Proof.
  intros Hv. unfold analyzeBackRow. rewrite Hv. cbn [negb].
  destruct (validate_true_lookup _ _ 11%nat Hv) as (shoulder & -> & _);
    [unfold backRowPoints; simpl; tauto|].
  destruct (validate_true_lookup _ _ 13%nat Hv) as (elbow & -> & _);
    [unfold backRowPoints; simpl; tauto|].
  destruct (validate_true_lookup _ _ 15%nat Hv) as (wrist & -> & _);
    [unfold backRowPoints; simpl; tauto|].
  destruct (validate_true_lookup _ _ 23%nat Hv) as (hip & -> & _);
    [unfold backRowPoints; simpl; tauto|].
  destruct (validate_true_lookup _ _ 27%nat Hv) as (ankle & -> & _);
    [unfold backRowPoints; simpl; tauto|].
  destruct (validate_true_lookup _ _ 12%nat Hv) as (shoulderR & -> & _);
    [unfold backRowPoints; simpl; tauto|].
  destruct (getAverageConfidence_total _ _ Hv) as (conf & ->).
  cbn [mbind option_bind].
  destruct (calculateWeightedAngle_total shoulder elbow wrist)
    as (elbowAngle & elbowConf & ->).
  cbn [mbind option_bind fst snd].
  rewrite calculateDistance2D_Some.
  cbn [mbind option_bind].
  eexists _, conf. split; [reflexivity|]. split; [reflexivity|].
  split; [|split; reflexivity].
  apply evaluated_scored.
  set (m := <["elbowProximity" := _]> _). clearbody m.
  account.
Qed.

Lemma analyzePushUp_evaluable (landmarks : list Point) :
  validateLandmarks landmarks pushUpPoints = true ->
  exists r conf,
    analyzePushUp landmarks = Some r /\ isValid r = true /\ scored r /\
    getAverageConfidence landmarks pushUpPoints = Some conf /\
    confidence r = conf.
Proof.
  intros Hv. unfold analyzePushUp. rewrite Hv. cbn [negb].
  destruct (validate_true_lookup _ _ 11%nat Hv) as (shoulder & -> & _);
    [unfold pushUpPoints; simpl; tauto|].
  destruct (validate_true_lookup _ _ 13%nat Hv) as (elbow & -> & _);
    [unfold pushUpPoints; simpl; tauto|].
  destruct (validate_true_lookup _ _ 15%nat Hv) as (wrist & -> & _);
    [unfold pushUpPoints; simpl; tauto|].
  destruct (validate_true_lookup _ _ 23%nat Hv) as (hip & -> & _);
    [unfold pushUpPoints; simpl; tauto|].
  destruct (validate_true_lookup _ _ 27%nat Hv) as (ankle & -> & _);
    [unfold pushUpPoints; simpl; tauto|].
  destruct (getAverageConfidence_total _ _ Hv) as (conf & ->).
  cbn [mbind option_bind].
  destruct (calculateWeightedAngle_total shoulder elbow wrist)
    as (elbowAngle & elbowConf & ->).
  cbn [mbind option_bind fst snd].
  destruct (pointToLineDistance_total hip shoulder ankle) as (dev & ->).
  cbn [mbind option_bind].
  unfold calculateDistance. cbn zeta. rewrite Math_sqrt_squares.
  cbn [mbind option_bind].
  eexists _, conf. split; [reflexivity|]. split; [reflexivity|].
  split; [|split; reflexivity].
  apply evaluated_scored.
  set (m := <["elbowDepth" := _]> _). clearbody m.
  account.
Qed.

(** ** Bounds on the returned record *)

Lemma lookup_In (landmarks : list Point) (i : nat) (p : Point) :
  landmarks !! i = Some p -> In p landmarks.
Proof.
  revert i. induction landmarks as [|q l IH]; intros [|i] H;
    try discriminate H.
  - injection H as ->. left. reflexivity.
  - right. apply (IH i). exact H.
Qed.

Lemma analyzer_bounds (landmarks : list Point) (indices : list nat)
    (f : list Point -> option (BiomechanicalAnalysis R)) (msg : string) :
  visibilities_in_unit landmarks ->
  (validateLandmarks landmarks indices = false ->
   f landmarks = Some (notEvaluable msg)) ->
  (validateLandmarks landmarks indices = true ->
   exists r conf,
     f landmarks = Some r /\ isValid r = true /\ scored r /\
     getAverageConfidence landmarks indices = Some conf /\
     confidence r = conf) ->
  exists r, f landmarks = Some r /\
            0 <= quality r <= 100 /\ 0 <= confidence r <= 1.
Proof.
  intros Hvis Hfalse Htrue.
  destruct (validateLandmarks landmarks indices) eqn:Hv.
  - destruct (Htrue eq_refl) as (r & conf & Hr & _ & (_ & _ & Hq) & Hc & <-).
    exists r. split; [exact Hr|]. split; [exact Hq|].
    destruct (getAverageConfidence_bounds landmarks indices) as (c & Hc' & Hb).
    { intros i Hi. destruct (validate_true_lookup _ _ i Hv Hi) as (p & Hp & Hlo).
      exists p. split; [exact Hp|]. split; [rlra|].
      destruct (visibility p) as [v|] eqn:E; cbn; [|rlra].
      apply (Hvis p v (lookup_In _ _ _ Hp) E). }
    rewrite Hc in Hc'. injection Hc' as <-. exact Hb.
  - exists (notEvaluable msg). split; [apply Hfalse; reflexivity|].
    cbn. rlra.
Qed.

(** C7: for every exercise name and every frame whose visibilities lie in
    [0, 1], the dispatcher returns a record with quality in [0, 100] and
    confidence in [0, 1]. *)
Theorem analysis_bounds (exercise : string) (landmarks : list Point) :
  visibilities_in_unit landmarks ->
  exists r, analyzeExercise exercise landmarks = Some r /\
            0 <= quality r <= 100 /\ 0 <= confidence r <= 1.
Proof.
  intros Hvis. unfold analyzeExercise.
  destruct (includes _ "remada" || includes _ "row");
    [|destruct (includes _ "agachamento" || includes _ "squat");
      [|destruct (includes _ "flexão" || includes _ "push"
                  || includes _ "pushup")]].
  - apply (analyzer_bounds landmarks backRowPoints analyzeBackRow
             "Posicione-se de lado para a câmera" Hvis).
    + intros Hv. unfold analyzeBackRow. rewrite Hv. reflexivity.
    + apply analyzeBackRow_evaluable.
  - apply (analyzer_bounds landmarks squatPoints analyzeSquat
             "Posicione-se de frente ou de costas para a câmera" Hvis).
    + intros Hv. unfold analyzeSquat. rewrite Hv. reflexivity.
    + apply analyzeSquat_evaluable.
  - apply (analyzer_bounds landmarks pushUpPoints analyzePushUp
             "Posicione-se de lado para a câmera" Hvis).
    + intros Hv. unfold analyzePushUp. rewrite Hv. reflexivity.
    + apply analyzePushUp_evaluable.
  - eexists. split; [reflexivity|]. cbn. rlra.
Qed.

(** ** A squat with one leg slightly bent *)

Lemma squatPose_valid (shoulder hipL hipR kneeL kneeR ankleL ankleR : Point) :
  Forall (fun p => visibility p = Some 1)
    [shoulder; hipL; hipR; kneeL; kneeR; ankleL; ankleR] ->
  validateLandmarks
    (squatPose shoulder hipL hipR kneeL kneeR ankleL ankleR) squatPoints
  = true.
Proof.
  intros H. unfold validateLandmarks. apply forallb_forall.
  intros i Hi. unfold squatPoints in Hi. simpl in Hi.
  repeat (apply Forall_cons_iff in H; destruct H as [? H]).
  repeat destruct Hi as [<-|Hi]; try contradiction; cbn;
    unfold isVisible;
    match goal with
    | E : visibility ?p = Some 1 |- context [visibility ?p] => rewrite E
    end; cbn; apply Rgeb_true; rlra.
Qed.

Lemma unevenSquat_valid : validateLandmarks unevenSquat squatPoints = true.
Proof. apply squatPose_valid. repeat constructor. Qed.





(** ** The theorems at concrete frames *)

Lemma unevenSquat_visibilities : visibilities_in_unit unevenSquat.
Proof.
  intros p v Hin Hv. unfold unevenSquat, squatPose in Hin. simpl in Hin.
  repeat destruct Hin as [<-|Hin]; try contradiction; cbn in Hv;
    try discriminate Hv; injection Hv as <-; rlra.
Qed.

(** C6 at a frame whose left ankle has visibility 0.3 and at a frame of 20
    landmarks, in which landmark 23 is absent. *)
Lemma not_evaluable_frame_witness :
  analyzeSquat hiddenAnkle
  = Some (mkAnalysis ["Posicione-se de frente ou de costas para a câmera"]
            ∅ rest false 0 0) /\
  analyzePushUp (repeat filler 20)
  = Some (mkAnalysis ["Posicione-se de lado para a câmera"] ∅ rest false 0 0).
Proof.
  split.
  - apply (not_evaluable_frame hiddenAnkle).
    exists 27%nat. split; [unfold squatPoints; simpl; tauto|].
    right. exists (mkPoint 0.4 0.8 None (Some 0.3)), 0.3.
    split; [reflexivity|]. split; [reflexivity|rlra].
  - apply (not_evaluable_frame (repeat filler 20)).
    exists 23%nat. split; [unfold pushUpPoints; simpl; tauto|].
    left. reflexivity.
Defined.

(** C7 at the frame [unevenSquat] and an exercise name in capitals. *)
Lemma analysis_bounds_witness :
  exists r, analyzeExercise "AGACHAMENTO livre" unevenSquat = Some r /\
            0 <= quality r <= 100 /\ 0 <= confidence r <= 1.
Proof.
  apply (analysis_bounds "AGACHAMENTO livre" unevenSquat).
  apply unevenSquat_visibilities.
Defined.


End AnalyzerFacts.

(* ================================================================== *)
(** * Invariants of a counting session *)
(* ================================================================== *)

Module SessionFacts.

Import PoseAnalysis SmootherFacts RepetitionFacts.
Local Open Scope Q_scope.

Local Ltac qlra := Lqa.lra.

(** [detectRep] either rejects the analysis and writes nothing, or pushes
    one sample and steps the state machine. *)
Lemma detectRep_cases (selectedExercise : string) (now : Z)
    (a : BiomechanicalAnalysis Q) (h : Hook) :
  detectRep selectedExercise now a h = (false, h) \/
  (isValid a = true /\ 0.5 <= confidence a /\
   let pa := getPrimaryAngle selectedExercise a in
   let sm := smoothMetric (metricBuffer h) (fst pa) (snd pa) in
   detectRep selectedExercise now a h
   = repStateMachine (getThresholds selectedExercise) now a (fst sm)
       (set_metricBuffer (snd sm) h)).
Proof.
  unfold detectRep. destruct (isValid a); cbn [negb]; [|left; reflexivity].
  destruct (Qltb (confidence a) MIN_CONFIDENCE_THRESHOLD) eqn:E;
    [left; reflexivity|].
  right. apply Qltb_ge in E.
  split; [reflexivity|split; [exact E|reflexivity]].
Qed.

(** One call of the state machine, outcome by outcome. *)
Lemma repStateMachine_outcome (th : Thresholds) (now : Z)
    (a : BiomechanicalAnalysis Q) (s : Q) (h : Hook) :
  let r := repStateMachine th now a s h in
  (fst r = true /\ snd r = acceptRep now a h /\
   repState h = TRANSITIONING /\ up th + hysteresis th < s /\
   (500 <= now - lastRepTime h)%Z /\
   0.3 <= repDuration now h <= 10) \/
  (fst r = false /\
   (snd r = h \/ snd r = set_repState UP h \/
    snd r = set_repState DOWN h \/
    snd r = set_repStartTime now (set_repState TRANSITIONING h)) /\
   allowedMove (repState h) (repState (snd r))).
Proof.
  cbn zeta. unfold repStateMachine, allowedMove.
  destruct (repState h) eqn:Hst; cbn [bool_decide_true andb];
    repeat match goal with
      | |- context [bool_decide ?P] =>
          first [ rewrite (bool_decide_eq_true_2 P) by reflexivity
                | rewrite (bool_decide_eq_false_2 P) by discriminate ]
      end; cbn [andb].
  - destruct (Qltb s (down th - hysteresis th)); right; cbn; tauto.
  - destruct (Qgtb s (up th + hysteresis th)) eqn:Eup;
      [|destruct (Qltb s (down th - hysteresis th * 2))];
      right; cbn; rewrite ?Hst; tauto.
  - destruct (Qgtb s (up th + hysteresis th)) eqn:Eup.
    + destruct (Z.ltb_spec (now - lastRepTime h) 500) as [Hd|Hd];
        [right; cbn; rewrite ?Hst; tauto|].
      destruct (Qltb (repDuration now h) 0.3 || Qgtb (repDuration now h) 10)
        eqn:Edur; [right; cbn; tauto|].
      left. apply orb_false_iff in Edur. destruct Edur as [E1 E2].
      apply Qltb_ge in E1. apply Qgtb_le in E2. apply Qgtb_gt in Eup.
      cbn. tauto.
    + destruct (Qltb s (down th - hysteresis th * 2));
        right; cbn; rewrite ?Hst; tauto.
Qed.

(** X1: in one call of [detectRep] the state either stays or moves along
    UP -> TRANSITIONING, TRANSITIONING -> DOWN, TRANSITIONING -> UP or
    DOWN -> UP (never UP -> DOWN, never DOWN -> TRANSITIONING), and the call
    returns [true] only on a move from TRANSITIONING to UP. *)
Theorem detectRep_moves (selectedExercise : string) (now : Z)
    (a : BiomechanicalAnalysis Q) (h : Hook) :
  let r := detectRep selectedExercise now a h in
  allowedMove (repState h) (repState (snd r)) /\
  (fst r = true -> repState h = TRANSITIONING /\ repState (snd r) = UP).
Proof.
  cbn zeta.
  destruct (detectRep_cases selectedExercise now a h) as [E|(_ & _ & E)].
  - rewrite E. cbn. split; [left; reflexivity|discriminate].
  - cbn zeta in E. rewrite E.
    match goal with
    | |- context [repStateMachine ?th now a ?s ?h1] =>
        destruct (repStateMachine_outcome th now a s h1)
          as [(Ht & Hs & Hst & _)|(Hf & _ & Hmove)]
    end.
    + cbn [repState set_metricBuffer] in Hst. rewrite Hs, Hst. cbn.
      split; [|tauto]. right. right. right. left. tauto.
    + cbn [repState set_metricBuffer] in Hmove.
      split; [exact Hmove|]. rewrite Hf. discriminate.
Qed.

(** The theorem at the frame of the session [quickSecondRep] on which the
    second repetition is counted. *)
Lemma detectRep_moves_witness :
  let h := feed "agachamento" (quickSecondRep ++ [squatFrame 720 180])
             initialHook in
  let f := squatFrame 840 180 in
  repState h = TRANSITIONING /\
  repState (snd (detectRep "agachamento" (fst f) (snd f) h)) = UP.
Proof.
  intros h f. apply (detectRep_moves "agachamento" (fst f) (snd f) h).
  vm_compute. reflexivity.
Defined.

(** What one frame does to the cells that record repetitions. *)
Lemma analyzeFrame_step (selectedExercise : string) (now : Z)
    (a : BiomechanicalAnalysis Q) (h : Hook) :
  let h' := analyzeFrame selectedExercise now a h in
  (repHistory h' = repHistory h /\ repCountRef h' = repCountRef h /\
   repCount h' = repCount h /\ qualitySum h' = qualitySum h /\
   confidenceSum h' = confidenceSum h /\ lastRepTime h' = lastRepTime h /\
   avgQuality h' = avgQuality h /\ avgConfidence h' = avgConfidence h) \/
  (repHistory h' = repHistory h ++
     [mkRepData (repCountRef h + 1) (repDuration now h) (quality a) now
        (confidence a)] /\
   repCountRef h' = (repCountRef h + 1)%Z /\
   repCount h' = (repCountRef h + 1)%Z /\
   qualitySum h' = qualitySum h + quality a /\
   confidenceSum h' = confidenceSum h + confidence a /\
   lastRepTime h' = now /\
   avgQuality h' = qualitySum h' / inject_Z (Z.of_nat (length (repHistory h'))) /\
   avgConfidence h'
   = confidenceSum h' / inject_Z (Z.of_nat (length (repHistory h'))) /\
   0.5 <= confidence a /\ (500 <= now - lastRepTime h)%Z /\
   0.3 <= repDuration now h <= 10).
Proof.
  cbn zeta. unfold analyzeFrame.
  destruct (isValid a); [|left; repeat split; reflexivity].
  set (h1 := set_currentPhase (phase a) h).
  destruct (detectRep_cases selectedExercise now a h1) as [E|(_ & Hc & E)].
  - rewrite E. left. cbn. repeat split; reflexivity.
  - cbn zeta in E. rewrite E.
    match goal with
    | |- context [repStateMachine ?th now a ?s ?h2] =>
        destruct (repStateMachine_outcome th now a s h2)
          as [(Ht & Hs & _ & _ & Hd & Hdur)|(Hf & Hs & _)]
    end.
    + right. unfold countRep. rewrite Ht, Hs. cbn.
      cbn in Hd, Hdur. repeat split; try reflexivity; tauto.
    + left. unfold countRep. rewrite Hf.
      destruct Hs as [Hs|[Hs|[Hs|Hs]]]; rewrite Hs; cbn;
        repeat split; reflexivity.
Qed.

Lemma Qsum_snoc (l : list Q) (q : Q) : Qsum (l ++ [q]) == Qsum l + q.
Proof. induction l as [|a l IH]; simpl; [ring|]. rewrite IH. ring. Qed.

Lemma numberedFrom_snoc (k : Z) (l : list RepData) (r : RepData) :
  numberedFrom k l ->
  rep_count r = (k + Z.of_nat (length l) + 1)%Z ->
  numberedFrom k (l ++ [r]).
Proof.
  revert k. induction l as [|r0 l IH]; intros k Hl Hr; simpl in *.
  - split; [lia|exact I].
  - destruct Hl as [H0 Hl]. split; [exact H0|]. apply IH; [exact Hl|lia].
Qed.

Lemma spaced_snoc (l : list RepData) (r : RepData) :
  spaced l ->
  (forall r0, last l = Some r0 -> (rep_timestamp r0 + 500 <= rep_timestamp r)%Z) ->
  spaced (l ++ [r]).
Proof.
  induction l as [|r1 l IH]; intros Hl Hlast; [simpl; tauto|].
  destruct l as [|r2 l].
  - simpl. split; [|tauto]. apply Hlast. reflexivity.
  - destruct Hl as [H12 Hl]. split; [exact H12|].
    apply IH; [exact Hl|]. intros r0 Hr0. apply Hlast. exact Hr0.
Qed.

Lemma fresh_invariant (h : Hook) : fresh h -> sessionInvariant h.
Proof.
  intros (Hh & Hc & Hn & Hq & Hs). unfold sessionInvariant.
  rewrite Hh, Hc, Hn. simpl.
  repeat split; try assumption; try reflexivity; try constructor;
    try discriminate; congruence.
Qed.

(** Every frame keeps the invariant. *)
Lemma analyzeFrame_invariant (selectedExercise : string) (now : Z)
    (a : BiomechanicalAnalysis Q) (h : Hook) :
  sessionInvariant h ->
  sessionInvariant (analyzeFrame selectedExercise now a h).
Proof.
  intros (Hc & Hn & Hnum & Hq & Hs & Hp & Hsp & Hl & Havg).
  destruct (analyzeFrame_step selectedExercise now a h)
    as [(E1 & E2 & E3 & E4 & E5 & E6 & E7 & E8)
       |(E1 & E2 & E3 & E4 & E5 & E6 & E7 & E8 & Hconf & Hd & Hdur)];
    cbn zeta in *;
    set (h' := analyzeFrame selectedExercise now a h) in *;
    unfold sessionInvariant.
  - rewrite E1, E2, E3, E4, E5, E6, E7, E8.
    repeat split; assumption || (apply Havg; assumption).
  - split; [rewrite E1, E2, length_app; cbn; lia|].
    split; [rewrite E2, E3; reflexivity|].
    split; [rewrite E1; apply numberedFrom_snoc; [exact Hnum|cbn; lia]|].
    split; [rewrite E1, E4, map_app; cbn [map rep_quality];
            rewrite Qsum_snoc, Hq; reflexivity|].
    split; [rewrite E1, E5, map_app; cbn [map rep_confidence];
            rewrite Qsum_snoc, Hs; reflexivity|].
    split; [rewrite E1; apply Forall_app; split; [exact Hp|];
            constructor; [split; assumption|constructor]|].
    split; [rewrite E1; apply spaced_snoc; [exact Hsp|];
            intros r0 Hr0; cbn; rewrite (Hl r0 Hr0); lia|].
    split; [intros r Hr; rewrite E1, last_snoc in Hr; injection Hr as <-;
            rewrite E6; reflexivity|].
    intros _. rewrite E7, E8. split; reflexivity.
Qed.

Lemma feed_invariant (selectedExercise : string)
    (frames : list (Z * BiomechanicalAnalysis Q)) (h : Hook) :
  sessionInvariant h -> sessionInvariant (feed selectedExercise frames h).
Proof.
  revert h. induction frames as [|f frames IH]; intros h Hinv; [exact Hinv|].
  apply IH, analyzeFrame_invariant, Hinv.
Qed.

Lemma reset_fresh (h : Hook) : fresh (resetOnExerciseChange h).
Proof. repeat split; reflexivity. Qed.

(** X2: after a change of exercise, whatever the cells held before, and after
    any sequence of frames, the repetition count equals the number of
    records in the history, the displayed count equals it too, and the
    records carry the sequence numbers 1, 2, 3, ... in order. *)
Theorem session_count_matches_history (selectedExercise : string)
    (frames : list (Z * BiomechanicalAnalysis Q)) (h0 : Hook) :
  let h := feed selectedExercise frames (resetOnExerciseChange h0) in
  repCountRef h = Z.of_nat (length (repHistory h)) /\
  repCount h = repCountRef h /\
  numberedFrom 0 (repHistory h).
Proof.
  destruct (feed_invariant selectedExercise frames _
              (fresh_invariant _ (reset_fresh h0)))
    as (H1 & H2 & H3 & _).
  cbn zeta. tauto.
Qed.

(** X3: every record of the history of a session has a duration between
    0.3 s and 10 s and a confidence of at least 0.5, and consecutive
    records are at least 500 ms apart. *)
Theorem session_records_plausible (selectedExercise : string)
    (frames : list (Z * BiomechanicalAnalysis Q)) (h0 : Hook) :
  let h := feed selectedExercise frames (resetOnExerciseChange h0) in
  Forall plausible (repHistory h) /\ spaced (repHistory h).
Proof.
  destruct (feed_invariant selectedExercise frames _
              (fresh_invariant _ (reset_fresh h0)))
    as (_ & _ & _ & _ & _ & H1 & H2 & _).
  cbn zeta. tauto.
Qed.



(** X5: the count never decreases during a session, and it grows by at most
    one per frame. *)
Theorem session_count_monotone (selectedExercise : string)
    (frames : list (Z * BiomechanicalAnalysis Q)) (h : Hook) :
  (repCountRef h <= repCountRef (feed selectedExercise frames h)
   <= repCountRef h + Z.of_nat (length frames))%Z.
Proof.
  revert h. induction frames as [|f frames IH]; intros h; [simpl; lia|].
  change (feed selectedExercise (f :: frames) h)
    with (feed selectedExercise frames
            (analyzeFrame selectedExercise (fst f) (snd f) h)).
  specialize (IH (analyzeFrame selectedExercise (fst f) (snd f) h)).
  destruct (analyzeFrame_step selectedExercise (fst f) (snd f) h)
    as [(_ & E & _)|(_ & E & _)]; cbn zeta in E; rewrite E in IH;
    change (length (f :: frames)) with (S (length frames)); lia.
Qed.

(** The buffer after one frame: untouched, or one sample pushed. *)
Lemma analyzeFrame_buffer (selectedExercise : string) (now : Z)
    (a : BiomechanicalAnalysis Q) (h : Hook) :
  metricBuffer (analyzeFrame selectedExercise now a h) = metricBuffer h \/
  exists v c,
    metricBuffer (analyzeFrame selectedExercise now a h)
    = snd (smoothMetric (metricBuffer h) v c).
Proof.
  unfold analyzeFrame. destruct (isValid a); [|left; reflexivity].
  set (h1 := set_currentPhase (phase a) h).
  destruct (detectRep_cases selectedExercise now a h1) as [E|(_ & _ & E)].
  - rewrite E. left. reflexivity.
  - cbn zeta in E. rewrite E. right.
    exists (fst (getPrimaryAngle selectedExercise a)),
           (snd (getPrimaryAngle selectedExercise a)).
    match goal with
    | |- context [repStateMachine ?th now a ?s ?h2] =>
        destruct (repStateMachine_outcome th now a s h2)
          as [(Ht & Hs & _)|(Hf & Hs & _)]
    end.
    + unfold countRep. rewrite Ht, Hs. reflexivity.
    + unfold countRep. rewrite Hf.
      destruct Hs as [Hs|[Hs|[Hs|Hs]]]; rewrite Hs; reflexivity.
Qed.

(** X6: during a session the two arrays of the smoothing buffer always have
    the same length, and never more than [BUFFER_SIZE] entries. *)
Theorem session_buffer_bounded (selectedExercise : string)
    (frames : list (Z * BiomechanicalAnalysis Q)) (h0 : Hook) :
  let b := metricBuffer
             (feed selectedExercise frames (resetOnExerciseChange h0)) in
  length (values b) = length (weights b) /\
  (length (values b) <= BUFFER_SIZE)%nat.
Proof.
  cbn zeta.
  assert (H : forall h, wf_buffer (metricBuffer h) ->
                        wf_buffer (metricBuffer (feed selectedExercise frames h))).
  { induction frames as [|f frames IH]; intros h Hwf; [exact Hwf|].
    apply IH.
    destruct (analyzeFrame_buffer selectedExercise (fst f) (snd f) h)
      as [E|(v & c & E)]; rewrite E; [exact Hwf|].
    apply smoothMetric_wf, Hwf. }
  apply H. apply emptyBuffer_wf.
Qed.

(** X7: whatever the exercise name, the thresholds that [getThresholds]
    selects leave a dead band: the hysteresis is at least 8 degrees and the
    ascent threshold up + hysteresis lies at least 60 degrees above the
    descent threshold down - hysteresis, so no smoothed angle satisfies the
    descent and the ascent test at once. *)
Theorem thresholds_dead_band (selectedExercise : string) (s : Q) :
  let th := getThresholds selectedExercise in
  8 <= hysteresis th /\
  down th - hysteresis th + 60 <= up th + hysteresis th /\
  ~ (s < down th - hysteresis th /\ up th + hysteresis th < s).
Proof.
  cbn zeta.
  assert (H : In (getThresholds selectedExercise)
                 (defaultThresholds :: map snd thresholds)).
  { unfold getThresholds.
    destruct (List.find _ thresholds) as [kv|] eqn:E; [|left; reflexivity].
    right. apply find_some in E. apply in_map, E. }
  assert (Hall : Forall (fun th => 8 <= hysteresis th /\
                           down th - hysteresis th + 60 <= up th + hysteresis th)
                   (defaultThresholds :: map snd thresholds)).
  { repeat constructor; cbn; discriminate. }
  rewrite Forall_forall in Hall.
  destruct (Hall _ (proj2 (list_elem_of_In _ _) H)) as [H1 H2].
  split; [exact H1|]. split; [exact H2|]. intros [Ha Hb]. qlra.
Qed.





End SessionFacts.

(* ================================================================== *)
(** * Laws of the geometry primitives *)
(* ================================================================== *)

Module GeometryLaws.

Import Geometry GeometryFacts.
Local Open Scope R_scope.

Local Ltac rlra := Lra.lra.
Local Ltac rnra := Lra.nra.

(** The sum of squares under a root. *)
Definition sumsq (a b c : R) : R := a * a + b * b + c * c.



Lemma Math_atan2_range (b a : R) : - PI < Math_atan2 b a <= PI.
Proof.
  pose proof PI_RGT_0 as Hpi.
  pose proof (atan_bound (b / a)) as [H1 H2].
  unfold Math_atan2, Rltb, Rleb.
  destruct (Rlt_dec 0 a); [rlra|].
  destruct (Rlt_dec a 0) as [Ha|Ha].
  - destruct (Rle_dec 0 b) as [Hb|Hb].
    2:{ assert (Hq : 0 < b / a).
        { unfold Rdiv. replace (b * / a) with ((- b) * (- / a)) by ring.
          apply Rmult_lt_0_compat; [rlra|].
          pose proof (Rinv_lt_0_compat a Ha). rlra. }
        pose proof (atan_increasing _ _ Hq) as Hat. rewrite atan_0 in Hat.
        rlra. }
    assert (Hq : b / a <= 0).
    { unfold Rdiv. replace 0 with (b * 0) by ring.
      apply Rmult_le_compat_l; [exact Hb|].
      apply Rlt_le, Rinv_lt_0_compat, Ha. }
    assert (Hat : atan (b / a) <= 0).
    { rewrite <- atan_0. destruct Hq as [Hq|Hq].
      - apply Rlt_le, atan_increasing, Hq.
      - rewrite Hq. apply Rle_refl. }
    rlra.
  - destruct (Rlt_dec 0 b); [rlra|]. destruct (Rlt_dec b 0); rlra.
Qed.

(** The normalisation of [calculateAngle2D]: a difference of two arguments,
    in degrees, folded into [0, 180]. *)
Lemma fold_degrees (radians : R) :
  - (2 * PI) < radians < 2 * PI ->
  let angle := Rabs (radians * 180 / PI) in
  0 <= (if Rgtb angle 180 then 360 - angle else angle) <= 180.
Proof.
  intros Hr angle. pose proof PI_RGT_0 as Hpi.
  assert (Hdeg : angle < 360).
  { apply Rabs_def1.
    - apply Rmult_lt_reg_r with PI; [exact Hpi|].
      unfold Rdiv. rewrite Rmult_assoc, Rinv_l by rlra. rlra.
    - apply Rmult_lt_reg_r with PI; [exact Hpi|].
      unfold Rdiv. rewrite Rmult_assoc, Rinv_l by rlra. rlra. }
  pose proof (Rabs_pos (radians * 180 / PI)) as Hpos. fold angle in Hpos.
  unfold Rgtb, Rltb. destruct (Rlt_dec 180 angle); rlra.
Qed.

(** X9: the 2D angle is always between 0 and 180 degrees. *)
Theorem calculateAngle2D_range (a b c : Point) :
  0 <= calculateAngle2D a b c <= 180.
Proof.
  pose proof (Math_atan2_range (y c - y b) (x c - x b)) as [H1 H2].
  pose proof (Math_atan2_range (y a - y b) (x a - x b)) as [H3 H4].
  unfold calculateAngle2D. cbn zeta.
  apply (fold_degrees (Math_atan2 (y c - y b) (x c - x b)
                       - Math_atan2 (y a - y b) (x a - x b))).
  rlra.
Qed.

(** X10: the angle at the vertex does not depend on the order of the two
    other points. *)
Theorem calculateAngle_symmetric (a b c : Point) :
  calculateAngle a b c = calculateAngle c b a.
Proof.
  rewrite !calculateAngle_cases. cbn zeta.
  rewrite orb_comm.
  match goal with
  | |- (if ?t then _ else _) = _ => destruct t; [reflexivity|]
  end.
  match goal with
  | |- Some (acos (Rmax _ (Rmin _ (?d1 / ?p1))) * _)
       = Some (acos (Rmax _ (Rmin _ (?d2 / ?p2))) * _) =>
      replace d2 with d1 by (unfold dotProduct; ring);
      replace p2 with p1 by ring
  end.
  reflexivity.
Qed.

Lemma calculateDistance_Some (a b : Point) :
  calculateDistance a b
  = Some (sqrt (sumsq (x a - x b) (y a - y b)
                  (orElse (z a) 0 - orElse (z b) 0))).
Proof. unfold calculateDistance. cbn zeta. apply Math_sqrt_squares. Qed.

Lemma calculateDistance2D_value (a b : Point) :
  calculateDistance2D a b = Some (sqrt (sumsq (x a - x b) (y a - y b) 0)).
Proof.
  unfold calculateDistance2D, Math_sqrt, sumsq. cbn zeta.
  pose proof (Rle_0_sqr (x a - x b)) as Hx.
  pose proof (Rle_0_sqr (y a - y b)) as Hy. unfold Rsqr in Hx, Hy.
  rewrite Rleb_true by rlra. do 2 f_equal. ring.
Qed.




(** X12: the 3D distance is never smaller than the 2D distance, and the two
    agree for landmarks at the same depth. *)
Theorem distance3D_ge_distance2D (a b : Point) :
  exists d3 d2,
    calculateDistance a b = Some d3 /\
    calculateDistance2D a b = Some d2 /\
    d2 <= d3 /\
    (orElse (z a) 0 = orElse (z b) 0 -> d3 = d2).
Proof.
  rewrite calculateDistance_Some, calculateDistance2D_value.
  eexists _, _. split; [reflexivity|]. split; [reflexivity|]. split.
  - apply sqrt_le_1_alt. unfold sumsq.
    pose proof (Rle_0_sqr (orElse (z a) 0 - orElse (z b) 0)) as Hz.
    unfold Rsqr in Hz. rlra.
  - intros Ez. rewrite Ez. f_equal. unfold sumsq. ring.
Qed.

(** The theorem at two landmarks without depth. *)
Lemma distance3D_ge_distance2D_witness :
  calculateDistance (visibleAt 0.1 0.2) (visibleAt 0.4 0.6)
  = calculateDistance2D (visibleAt 0.1 0.2) (visibleAt 0.4 0.6).
Proof.
  destruct (distance3D_ge_distance2D (visibleAt 0.1 0.2) (visibleAt 0.4 0.6))
    as (d3 & d2 & H3 & H2 & _ & H).
  rewrite H3, H2, (H eq_refl). reflexivity.
Defined.





Lemma visibility_sum_ones (landmarks : list Point) (l : list nat) (s0 : R) :
  (forall i, In i l ->
     exists p, landmarks !! i = Some p /\ orElse (visibility p) 1 = 1) ->
  fold_left (fun acc i =>
               s ← acc; p ← landmarks !! i;
               Some (s + orElse (visibility p) 1))
    l (Some s0) = Some (s0 + INR (length l)).
Proof.
  revert s0. induction l as [|i l IH]; intros s0 H.
  - simpl. f_equal. ring.
  - destruct (H i (or_introl eq_refl)) as (p & Hp & Hv).
    cbn [fold_left]. rewrite Hp. cbn [mbind option_bind].
    rewrite Hv, IH by (intros j Hj; apply H; right; exact Hj).
    change (length (i :: l)) with (S (length l)). rewrite S_INR.
    f_equal. ring.
Qed.

Lemma filter_present_idem (landmarks : list Point) (l : list nat) :
  List.filter (present landmarks) (List.filter (present landmarks) l)
  = List.filter (present landmarks) l.
Proof.
  induction l as [|i l IH]; [reflexivity|]. simpl.
  destruct (present landmarks i) eqn:E; [|exact IH].
  simpl. rewrite E, IH. reflexivity.
Qed.

(** X15: [getAverageConfidence] ignores the indices that are not in the
    frame; it is 0 when none of the indices is in the frame (in particular
    for no index at all), and 1 when at least one is and every landmark it
    finds has visibility 1 or no visibility. *)
Theorem getAverageConfidence_edges (landmarks : list Point)
    (indices : list nat) :
  getAverageConfidence landmarks indices
  = getAverageConfidence landmarks (List.filter (present landmarks) indices)
  /\
  ((forall i, In i indices -> landmarks !! i = None) ->
   getAverageConfidence landmarks indices = Some 0) /\
  ((exists i, In i indices /\ present landmarks i = true) ->
   (forall i p, In i indices -> landmarks !! i = Some p ->
                visibility p = None \/ visibility p = Some 1) ->
   getAverageConfidence landmarks indices = Some 1).
Proof.
  split; [|split].
  - unfold getAverageConfidence. rewrite filter_present_idem. reflexivity.
  - intros Hnone. unfold getAverageConfidence.
    replace (List.filter (present landmarks) indices) with (@nil nat);
      [reflexivity|].
    symmetry. induction indices as [|i l IH]; [reflexivity|]. simpl.
    unfold present at 1. rewrite (Hnone i (or_introl eq_refl)).
    apply IH. intros j Hj. apply Hnone. right. exact Hj.
  - intros (i0 & Hi0 & Hp0) Hones. unfold getAverageConfidence.
    set (valid := List.filter (present landmarks) indices).
    assert (Hin : In i0 valid) by (apply filter_In; tauto).
    assert (Hlen : (0 < length valid)%nat)
      by (destruct valid; [contradiction|simpl; lia]).
    replace (length valid =? 0)%nat with false
      by (symmetry; apply Nat.eqb_neq; lia).
    rewrite (visibility_sum_ones landmarks valid 0).
    + cbn [mbind option_bind].
      assert (Hn : 0 < INR (length valid)) by (apply lt_0_INR; exact Hlen).
      rewrite div_Some by rlra. f_equal. field. rlra.
    + intros i Hi. apply filter_In in Hi. destruct Hi as [Hi Hp].
      unfold present in Hp. destruct (landmarks !! i) as [p|] eqn:E;
        [|discriminate Hp].
      exists p. split; [reflexivity|].
      destruct (Hones i p Hi E) as [Hv|Hv]; rewrite Hv; reflexivity.
Qed.

(** The third part at a frame of two landmarks and three indices, one of
    them outside the frame. *)
Lemma getAverageConfidence_edges_witness :
  getAverageConfidence [filler; visibleAt 0.1 0.2] [0; 5; 1]%nat = Some 1.
Proof.
  apply (getAverageConfidence_edges [filler; visibleAt 0.1 0.2] [0; 5; 1]%nat).
  - exists 0%nat. split; [left; reflexivity|reflexivity].
  - intros i p [<-|[<-|[<-|[]]]] Hp; cbn in Hp; try discriminate Hp;
      injection Hp as <-; cbn; tauto.
Defined.



End GeometryLaws.

(* ================================================================== *)
(** * Laws of the exercise analyzers *)
(* ================================================================== *)

Module AnalyzerLaws.

Import Strings Geometry GeometryFacts AnalyzerFacts GeometryLaws.
Local Open Scope R_scope.

Local Ltac rlra := Lra.lra.

Lemma calculateAngle_range (a b c : Point) :
  exists theta, calculateAngle a b c = Some theta /\ 0 <= theta <= 180.
Proof.
  rewrite calculateAngle_cases. cbn zeta.
  destruct (Reqb _ 0 || Reqb _ 0); eexists; (split; [reflexivity|]).
  - rlra.
  - apply degrees_bound, acos_bound.
Qed.

Lemma calculateWeightedAngle_value (a b c : Point) :
  exists theta,
    calculateWeightedAngle a b c
    = Some (theta, Rmin (orElse (visibility a) 1)
                     (Rmin (orElse (visibility b) 1)
                        (orElse (visibility c) 1))) /\
    0 <= theta <= 180.
Proof.
  unfold calculateWeightedAngle.
  destruct (calculateAngle_range a b c) as (theta & -> & Hb).
  exists theta. split; [reflexivity|exact Hb].
Qed.

Lemma Rmin3_ge (k a b c : R) :
  k <= a -> k <= b -> k <= c -> k <= Rmin a (Rmin b c).
Proof. intros. repeat apply Rmin_glb; assumption. Qed.

Lemma validate_true_iff (landmarks : list Point) (indices : list nat) :
  validateLandmarks landmarks indices = true
  <-> forall i, In i indices -> visibleIn landmarks i.
Proof.
  split.
  - intros Hv i Hi. apply (validate_true_lookup _ _ i Hv Hi).
  - intros H. unfold validateLandmarks. apply forallb_forall.
    intros i Hi. destruct (H i Hi) as (p & -> & Hvis).
    unfold isVisible. apply Rgeb_true, Hvis.
Qed.

Lemma profile_start (k : R) (msg : string) :
  k <= 100 -> profile k msg (mkAssessment [] 100).
Proof. intros H. split; [exact H|]. intros []. Qed.

Lemma profile_penalize (k n : R) (msg : string) (a : Assessment) :
  profile (k + n) msg a -> profile k msg (penalize n a).
Proof. intros [H1 H2]. split; [cbn; rlra|exact H2]. Qed.

Lemma profile_say (k : R) (msg m : string) (a : Assessment) :
  m <> msg -> profile k msg a -> profile k msg (say m a).
Proof.
  intros Hne [H1 H2]. split; [exact H1|]. cbn. intros Hin.
  apply in_app_or in Hin. destruct Hin as [Hin|[Hin|[]]]; [tauto|congruence].
Qed.

Lemma profile_evaluated (k : Z) (msg : string) (a : Assessment)
    (m : gmap string R) (ph : Phase) (conf : R) :
  profile (IZR k) msg a ->
  IZR k <= quality (evaluated a m ph conf) /\
  ~ In msg (feedback (evaluated a m ph conf)).
Proof.
  intros [H1 H2]. split; [|exact H2]. cbn [quality evaluated].
  apply Rle_trans with (Math_round (score a)); [|apply Rmax_r].
  unfold Math_round. apply IZR_le, Zfloor_lub. rlra.
Qed.

(** Walks the rule chain of an analyzer: a rule whose message is the one
    that must not occur has to be excluded by its own condition. *)
Local Ltac walk :=
  repeat first
    [ match goal with
      | |- profile _ _ (if ?c then _ else _) =>
          let E := fresh "E" in destruct c eqn:E
      end
    | apply profile_penalize
    | apply profile_say; [discriminate|]
    | match goal with
      | |- profile _ ?msg (say ?msg _) =>
          exfalso;
          repeat match goal with
            | E : Rgtb _ _ = true |- _ => apply Rgtb_lt in E
            end;
          rlra
      end
    | apply profile_start;
      try match goal with
        | |- context [Rmin 20 ?v] => pose proof (Rmin_l 20 v)
        end;
      rlra ].

Local Ltac required pts Hv i p Hp Hvis :=
  destruct (validate_true_lookup _ _ i Hv) as (p & Hp & Hvis);
  [unfold pts; simpl; tauto|]; rewrite Hp.

Local Ltac metric_lookup :=
  repeat rewrite lookup_insert_ne by discriminate; apply lookup_insert_eq.

Lemma analyzeSquat_profile (landmarks : list Point) :
  validateLandmarks landmarks squatPoints = true ->
  exists r theta c,
    analyzeSquat landmarks = Some r /\ isValid r = true /\
    metrics r !! "kneeAngle" = Some theta /\
    metrics r !! "kneeConfidence" = Some c /\
    0 <= theta <= 180 /\ 0.5 <= c /\
    30 <= quality r /\
    ~ In "Não incline para trás demais" (feedback r).
Proof.
  intros Hv. unfold analyzeSquat. rewrite Hv. cbn [negb].
  required squatPoints Hv 11%nat shoulder H11 V11.
  required squatPoints Hv 23%nat hipL H23 V23.
  required squatPoints Hv 24%nat hipR H24 V24.
  required squatPoints Hv 25%nat kneeL H25 V25.
  required squatPoints Hv 26%nat kneeR H26 V26.
  required squatPoints Hv 27%nat ankleL H27 V27.
  required squatPoints Hv 28%nat ankleR H28 V28.
  destruct (getAverageConfidence_total _ _ Hv) as (conf & ->).
  cbn [mbind option_bind].
  destruct (calculateWeightedAngle_value hipL kneeL ankleL)
    as (kneeAngle & -> & Hknee).
  cbn [mbind option_bind fst snd].
  destruct (calculateAngle_range shoulder hipL kneeL)
    as (torsoAngle & -> & Htorso).
  cbn [mbind option_bind].
  rewrite calculateDistance2D_Some. cbn [mbind option_bind].
  rewrite div_Some
    by (match goal with
        | |- Rmax ?d 0.01 <> 0 => pose proof (Rmax_r d 0.01); rlra
        end).
  cbn [mbind option_bind].
  destruct (calculateAngle_total hipR kneeR ankleR) as (kneeAngleR & ->).
  cbn [mbind option_bind].
  eexists _, kneeAngle, _. split; [reflexivity|]. split; [reflexivity|].
  split; [cbn [metrics evaluated]; metric_lookup|].
  split; [cbn [metrics evaluated]; metric_lookup|].
  split; [exact Hknee|]. split; [apply Rmin3_ge; assumption|].
  apply (profile_evaluated 30). walk.
Qed.

Lemma analyzeBackRow_profile (landmarks : list Point) :
  validateLandmarks landmarks backRowPoints = true ->
  exists r theta c,
    analyzeBackRow landmarks = Some r /\ isValid r = true /\
    metrics r !! "elbowAngle" = Some theta /\
    metrics r !! "elbowConfidence" = Some c /\
    0 <= theta <= 180 /\ 0.5 <= c /\
    45 <= quality r.
Proof.
  intros Hv. unfold analyzeBackRow. rewrite Hv. cbn [negb].
  required backRowPoints Hv 11%nat shoulder H11 V11.
  required backRowPoints Hv 13%nat elbow H13 V13.
  required backRowPoints Hv 15%nat wrist H15 V15.
  required backRowPoints Hv 23%nat hip H23 V23.
  required backRowPoints Hv 27%nat ankle H27 V27.
  required backRowPoints Hv 12%nat shoulderR H12 V12.
  destruct (getAverageConfidence_total _ _ Hv) as (conf & ->).
  cbn [mbind option_bind].
  destruct (calculateWeightedAngle_value shoulder elbow wrist)
    as (elbowAngle & -> & Helbow).
  cbn [mbind option_bind fst snd].
  rewrite calculateDistance2D_Some. cbn [mbind option_bind].
  eexists _, elbowAngle, _. split; [reflexivity|]. split; [reflexivity|].
  split; [cbn [metrics evaluated]; metric_lookup|].
  split; [cbn [metrics evaluated]; metric_lookup|].
  split; [exact Helbow|]. split; [apply Rmin3_ge; assumption|].
  apply (profile_evaluated 45 ""). walk.
Qed.

Lemma analyzePushUp_profile (landmarks : list Point) :
  validateLandmarks landmarks pushUpPoints = true ->
  exists r theta c,
    analyzePushUp landmarks = Some r /\ isValid r = true /\
    metrics r !! "elbowAngle" = Some theta /\
    metrics r !! "elbowConfidence" = Some c /\
    0 <= theta <= 180 /\ 0.5 <= c /\
    55 <= quality r /\
    ~ In "Quadril caído - ative o core" (feedback r).
Proof.
  intros Hv. unfold analyzePushUp. rewrite Hv. cbn [negb].
  required pushUpPoints Hv 11%nat shoulder H11 V11.
  required pushUpPoints Hv 13%nat elbow H13 V13.
  required pushUpPoints Hv 15%nat wrist H15 V15.
  required pushUpPoints Hv 23%nat hip H23 V23.
  required pushUpPoints Hv 27%nat ankle H27 V27.
  destruct (getAverageConfidence_total _ _ Hv) as (conf & ->).
  cbn [mbind option_bind].
  destruct (calculateWeightedAngle_value shoulder elbow wrist)
    as (elbowAngle & -> & Helbow).
  cbn [mbind option_bind fst snd].
  destruct (pointToLineDistance_total hip shoulder ankle) as (dev & ->).
  cbn [mbind option_bind].
  unfold calculateDistance. cbn zeta. rewrite Math_sqrt_squares.
  cbn [mbind option_bind].
  assert (Hbody : 0 <= calculateAngle2D shoulder hip ankle <= 180).
  { pose proof (Math_atan2_range (y ankle - y hip) (x ankle - x hip)).
    pose proof (Math_atan2_range (y shoulder - y hip) (x shoulder - x hip)).
    apply (fold_degrees (Math_atan2 (y ankle - y hip) (x ankle - x hip)
                         - Math_atan2 (y shoulder - y hip)
                             (x shoulder - x hip))).
    rlra. }
  set (bodyAngle := calculateAngle2D shoulder hip ankle) in *.
  eexists _, elbowAngle, _. split; [reflexivity|]. split; [reflexivity|].
  split; [cbn [metrics evaluated]; metric_lookup|].
  split; [cbn [metrics evaluated]; metric_lookup|].
  split; [exact Helbow|]. split; [apply Rmin3_ge; assumption|].
  apply (profile_evaluated 55). walk.
Qed.

Lemma not_evaluable_profile (msg : string) :
  isValid (notEvaluable msg) = false /\ feedback (notEvaluable msg) = [msg].
Proof. split; reflexivity. Qed.

(** X17: each analyzer reports [isValid = true] exactly when every landmark
    it requires is in the frame with a visibility of at least 0.5, or with
    no visibility given. *)
Theorem analysis_valid_iff (landmarks : list Point) :
  (exists r, analyzeBackRow landmarks = Some r /\
     (isValid r = true <->
      forall i, In i backRowPoints -> visibleIn landmarks i)) /\
  (exists r, analyzeSquat landmarks = Some r /\
     (isValid r = true <->
      forall i, In i squatPoints -> visibleIn landmarks i)) /\
  (exists r, analyzePushUp landmarks = Some r /\
     (isValid r = true <->
      forall i, In i pushUpPoints -> visibleIn landmarks i)).
Proof.
  split; [|split].
  - destruct (validateLandmarks landmarks backRowPoints) eqn:Hv.
    + destruct (analyzeBackRow_profile landmarks Hv) as (r & _ & _ & Hr & Hval & _).
      exists r. split; [exact Hr|]. rewrite <- validate_true_iff. tauto.
    + unfold analyzeBackRow. rewrite Hv. eexists. split; [reflexivity|].
      rewrite <- validate_true_iff, Hv. reflexivity.
  - destruct (validateLandmarks landmarks squatPoints) eqn:Hv.
    + destruct (analyzeSquat_profile landmarks Hv) as (r & _ & _ & Hr & Hval & _).
      exists r. split; [exact Hr|]. rewrite <- validate_true_iff. tauto.
    + unfold analyzeSquat. rewrite Hv. eexists. split; [reflexivity|].
      rewrite <- validate_true_iff, Hv. reflexivity.
  - destruct (validateLandmarks landmarks pushUpPoints) eqn:Hv.
    + destruct (analyzePushUp_profile landmarks Hv) as (r & _ & _ & Hr & Hval & _).
      exists r. split; [exact Hr|]. rewrite <- validate_true_iff. tauto.
    + unfold analyzePushUp. rewrite Hv. eexists. split; [reflexivity|].
      rewrite <- validate_true_iff, Hv. reflexivity.
Qed.



(** X19: the quality of a valid analysis never falls below 45 for the row, 30
    for the squat and 55 for the push-up: the penalties of one frame cannot
    add up to more, so the clamp at 0 is never reached. *)
Theorem quality_floor (landmarks : list Point) :
  (exists r, analyzeBackRow landmarks = Some r /\
     (isValid r = true -> 45 <= quality r)) /\
  (exists r, analyzeSquat landmarks = Some r /\
     (isValid r = true -> 30 <= quality r)) /\
  (exists r, analyzePushUp landmarks = Some r /\
     (isValid r = true -> 55 <= quality r)).
Proof.
  split; [|split].
  - destruct (validateLandmarks landmarks backRowPoints) eqn:Hv.
    + destruct (analyzeBackRow_profile landmarks Hv)
        as (r & _ & _ & Hr & _ & _ & _ & _ & _ & Hq).
      exists r. tauto.
    + unfold analyzeBackRow. rewrite Hv. eexists. split; [reflexivity|].
      discriminate.
  - destruct (validateLandmarks landmarks squatPoints) eqn:Hv.
    + destruct (analyzeSquat_profile landmarks Hv)
        as (r & _ & _ & Hr & _ & _ & _ & _ & _ & Hq & _).
      exists r. tauto.
    + unfold analyzeSquat. rewrite Hv. eexists. split; [reflexivity|].
      discriminate.
  - destruct (validateLandmarks landmarks pushUpPoints) eqn:Hv.
    + destruct (analyzePushUp_profile landmarks Hv)
        as (r & _ & _ & Hr & _ & _ & _ & _ & _ & Hq & _).
      exists r. tauto.
    + unfold analyzePushUp. rewrite Hv. eexists. split; [reflexivity|].
      discriminate.
Qed.

(** The theorem at the frame [unevenSquat]. *)
Lemma quality_floor_witness :
  exists r, analyzeSquat unevenSquat = Some r /\ 30 <= quality r.
Proof.
  destruct (quality_floor unevenSquat) as (_ & (r & Hr & Hq) & _).
  exists r. split; [exact Hr|]. apply Hq.
  destruct (analyzeSquat_profile unevenSquat unevenSquat_valid)
    as (r' & _ & _ & Hr' & Hv & _).
  rewrite Hr in Hr'. injection Hr' as <-. exact Hv.
Defined.

(** X20: two rules can never fire.  The squat analyzer never reports the
    message for leaning back (its condition is a 3D angle above 180), and
    the push-up analyzer never reports the message for a sagging hip (its
    condition is a 2D angle above 190): both angles are at most 180. *)
Theorem unreachable_rules (landmarks : list Point) :
  (exists r, analyzeSquat landmarks = Some r /\
     ~ In "Não incline para trás demais" (feedback r)) /\
  (exists r, analyzePushUp landmarks = Some r /\
     ~ In "Quadril caído - ative o core" (feedback r)).
Proof.
  split.
  - destruct (validateLandmarks landmarks squatPoints) eqn:Hv.
    + destruct (analyzeSquat_profile landmarks Hv)
        as (r & _ & _ & Hr & _ & _ & _ & _ & _ & _ & Hd).
      exists r. tauto.
    + unfold analyzeSquat. rewrite Hv. eexists. split; [reflexivity|].
      cbn. intros [H|[]]. discriminate H.
  - destruct (validateLandmarks landmarks pushUpPoints) eqn:Hv.
    + destruct (analyzePushUp_profile landmarks Hv)
        as (r & _ & _ & Hr & _ & _ & _ & _ & _ & _ & Hd).
      exists r. tauto.
    + unfold analyzePushUp. rewrite Hv. eexists. split; [reflexivity|].
      cbn. intros [H|[]]. discriminate H.
Qed.

End AnalyzerLaws.

(* ================================================================== *)
(** * Properties of the frame extraction settings *)
(* ================================================================== *)

Module VideoUtilsFacts.

Import VideoUtils.
Local Open Scope Q_scope.

Local Ltac qlra := Lqa.lra.
Local Ltac qnra := Lqa.nra.

Lemma Qle_bool_false (a b : Q) : Qle_bool a b = false <-> b < a.
Proof.
  split.
  - intros H. apply Qnot_le_lt. intros Hle. apply Qle_bool_iff in Hle.
    congruence.
  - intros H. destruct (Qle_bool a b) eqn:E; [|reflexivity].
    apply Qle_bool_iff in E. qlra.
Qed.

(** X21: [getOptimalFrameSettings] never asks for fewer than 3 or more than
    10 frames nor for a canvas above 854 x 480, and a longer video never
    gets fewer frames, a smaller canvas or a lower JPEG quality than a
    shorter one. *)
Theorem getOptimalFrameSettings_monotone (d1 d2 : Q) :
  d1 <= d2 ->
  let o1 := getOptimalFrameSettings d1 in
  let o2 := getOptimalFrameSettings d2 in
  (3 <= frameCount o1 <= 10)%Z /\
  (maxWidth o1 <= 854)%Z /\ (maxHeight o1 <= 480)%Z /\
  (frameCount o1 <= frameCount o2)%Z /\
  (maxWidth o1 <= maxWidth o2)%Z /\ (maxHeight o1 <= maxHeight o2)%Z /\
  quality o1 <= quality o2.
Proof.
  intros Hd. cbn zeta. unfold getOptimalFrameSettings.
  destruct (Qle_bool d1 5) eqn:A1; destruct (Qle_bool d1 15) eqn:A2;
    destruct (Qle_bool d1 30) eqn:A3;
    destruct (Qle_bool d2 5) eqn:B1; destruct (Qle_bool d2 15) eqn:B2;
    destruct (Qle_bool d2 30) eqn:B3;
    rewrite ?Qle_bool_iff, ?Qle_bool_false in *;
    try (exfalso; qlra); cbn; repeat split; try lia; discriminate.
Qed.

(** The theorem at a video of 12 s and one of 40 s. *)
Lemma getOptimalFrameSettings_monotone_witness :
  (frameCount (getOptimalFrameSettings 12)
   <= frameCount (getOptimalFrameSettings 40))%Z.
Proof.
  apply (getOptimalFrameSettings_monotone 12 40). discriminate.
Defined.

(** X22: the options object passed to [extractFramesFromVideo] has no effect
    on the settings in force: they are those of [getOptimalFrameSettings]
    for the duration of the video, whatever the object holds; only a frame
    count passed as a number is honoured, on the medium preset. *)
Theorem effectiveOptions_ignore_object (p : PartialOptions) (n : Z)
    (duration : Q) :
  effectiveOptions (inr p) duration = getOptimalFrameSettings duration /\
  effectiveOptions (inl n) duration
  = mkOptions 640 480 0.7 n.
Proof.
  split; [|reflexivity].
  unfold effectiveOptions, spread, spreadPartial. cbn [default].
  destruct (getOptimalFrameSettings duration); reflexivity.
Qed.

Lemma Qfloor_le_Z (q : Q) (z : Z) : q < inject_Z (z + 1) -> (Qfloor q <= z)%Z.
Proof.
  intros H. pose proof (Qfloor_le q) as Hf.
  assert (Hlt : inject_Z (Qfloor q) < inject_Z (z + 1)) by qlra.
  rewrite <- Zlt_Qlt in Hlt. lia.
Qed.

Lemma Qfloor_ge_Z (q : Q) (z : Z) : inject_Z z <= q -> (z <= Qfloor q)%Z.
Proof.
  intros H. rewrite <- (Qfloor_Z z). apply Qfloor_resp_le, H.
Qed.

Lemma Qfloor_ge_inv (q : Q) (z : Z) : (z <= Qfloor q)%Z -> inject_Z z <= q.
Proof.
  intros H. pose proof (Qfloor_le q) as Hf.
  rewrite Zle_Qle in H. qlra.
Qed.

(** X23: for a video of positive size the canvas computed by
    [extractFramesFromVideo] never exceeds the maximum size of the options
    nor the size of the video itself, in width and in height. *)
Theorem targetSize_bounds (videoWidth videoHeight : Z)
    (o : FrameExtractionOptions) :
  (0 < videoWidth)%Z -> (0 < videoHeight)%Z ->
  let size := targetSize videoWidth videoHeight o in
  (fst size <= Z.min videoWidth (maxWidth o))%Z /\
  (snd size <= Z.min videoHeight (maxHeight o))%Z.
Proof.
  intros Hw Hh. cbn zeta. unfold targetSize. cbn zeta.
  set (W := Z.min videoWidth (maxWidth o)).
  set (a := inject_Z videoWidth / inject_Z videoHeight).
  assert (Hvw : 0 < inject_Z videoWidth) by (rewrite <- (Zlt_Qlt 0); exact Hw).
  assert (Hvh : 0 < inject_Z videoHeight) by (rewrite <- (Zlt_Qlt 0); exact Hh).
  assert (Ha : 0 < a) by (apply Qlt_shift_div_l; qlra).
  assert (Hav : a * inject_Z videoHeight == inject_Z videoWidth)
    by (unfold a; field; qlra).
  assert (HW : inject_Z W <= inject_Z videoWidth)
    by (rewrite <- Zle_Qle; unfold W; lia).
  assert (Hq : inject_Z W / a * a == inject_Z W) by (field; qlra).
  assert (Hquot : inject_Z W / a <= inject_Z videoHeight).
  { apply Qle_shift_div_r; [exact Ha|]. rewrite Qmult_comm, Hav. exact HW. }
  assert (H0h : (Math_round (inject_Z W / a) <= videoHeight)%Z).
  { unfold Math_round. apply Qfloor_le_Z. rewrite inject_Z_plus.
    change (inject_Z 1) with 1. qlra. }
  destruct (Z.ltb_spec (maxHeight o) (Math_round (inject_Z W / a))) as [Hlt|Hge];
    cbn [fst snd].
  - split; [|lia].
    unfold Math_round in *. apply Qfloor_le_Z. rewrite inject_Z_plus.
    change (inject_Z 1) with 1.
    assert (Hk : inject_Z (maxHeight o + 1) <= inject_Z W / a + (1 # 2))
      by (apply Qfloor_ge_inv; lia).
    rewrite inject_Z_plus in Hk. change (inject_Z 1) with 1 in Hk.
    set (m := inject_Z (maxHeight o)) in *.
    set (w := inject_Z W) in *. set (q := w / a) in *.
    assert (m * a <= q * a - (1 # 2) * a) by qnra.
    qlra.
  - split; [lia|]. lia.
Qed.

(** The theorem at a portrait video of 1080 x 1920 and the medium preset. *)
Lemma targetSize_bounds_witness :
  let size := targetSize 1080 1920 (FRAME_EXTRACTION_PRESETS medium) in
  (fst size <= Z.min 1080 640)%Z /\ (snd size <= Z.min 1920 480)%Z.
Proof.
  apply (targetSize_bounds 1080 1920 (FRAME_EXTRACTION_PRESETS medium)); lia.
Defined.

(** X24: for a video of positive duration every frame position that
    [captureFrame] computes lies strictly inside the video, the positions
    increase from frame to frame, and the test that skips a frame never
    fires. *)
Theorem targetTime_inside (duration : Q) (count currentFrame : Z) :
  0 < duration ->
  (0 <= currentFrame < count)%Z ->
  0 < targetTime duration count currentFrame < duration /\
  targetTime duration count currentFrame
  < targetTime duration count (currentFrame + 1) /\
  skipsFrame duration count currentFrame = false.
Proof.
  intros Hd [Hk0 Hkn]. unfold skipsFrame, targetTime. cbn zeta.
  set (n1 := inject_Z (count + 1)).
  assert (Hn1 : 0 < n1) by (unfold n1; rewrite <- (Zlt_Qlt 0); lia).
  assert (Hk1 : 0 < inject_Z (currentFrame + 1))
    by (rewrite <- (Zlt_Qlt 0); lia).
  assert (Hk2 : inject_Z (currentFrame + 1) < n1)
    by (unfold n1; rewrite <- Zlt_Qlt; lia).
  assert (Hk3 : inject_Z (currentFrame + 1) < inject_Z (currentFrame + 1 + 1))
    by (rewrite <- Zlt_Qlt; lia).
  set (i := duration / n1).
  assert (Hi : 0 < i) by (apply Qlt_shift_div_l; qlra).
  assert (Hin : i * n1 == duration) by (unfold i; field; qlra).
  assert (Hlt : i * inject_Z (currentFrame + 1) < duration).
  { rewrite <- Hin. apply Qmult_lt_l; assumption. }
  assert (Hpos : 0 < i * inject_Z (currentFrame + 1)) by qnra.
  split; [split; assumption|]. split.
  - apply Qmult_lt_l; assumption.
  - apply orb_false_iff. split; apply negb_false_iff, Qle_bool_iff; qlra.
Qed.

(** The theorem at the third of six frames of a video of 12.5 s. *)
Lemma targetTime_inside_witness :
  0 < targetTime 12.5 6 2 < 12.5 /\
  targetTime 12.5 6 2 < targetTime 12.5 6 (2 + 1) /\
  skipsFrame 12.5 6 2 = false.
Proof.
  apply (targetTime_inside 12.5 6 2); [reflexivity|lia].
Defined.

Lemma truncate_nonneg (q : Q) : 0 <= q -> truncate q = Qfloor q.
Proof.
  intros H. unfold truncate. apply Qle_bool_iff in H. rewrite H. reflexivity.
Qed.

Lemma Qfloor_sub_Z (q : Q) (z : Z) :
  Qfloor (q - inject_Z z) = (Qfloor q - z)%Z.
Proof.
  pose proof (Qfloor_le q) as H1. pose proof (Qlt_floor q) as H2.
  rewrite inject_Z_plus in H2. change (inject_Z 1) with 1 in H2.
  apply Z.le_antisymm.
  - apply Qfloor_le_Z. unfold Z.sub.
    rewrite !inject_Z_plus, inject_Z_opp. change (inject_Z 1) with 1. qlra.
  - apply Qfloor_ge_Z. unfold Z.sub. rewrite inject_Z_plus, inject_Z_opp.
    qlra.
Qed.

Lemma two_digits_nat (n : nat) :
  (n < 60)%nat ->
  padStart (toString (Z.of_nat n)) 2 "0"
  = String (digit (Z.of_nat n / 10))
      (String (digit (Z.of_nat n mod 10)) EmptyString).
Proof.
  intros Hn. do 60 (destruct n as [|n]; [reflexivity|]). lia.
Qed.

Lemma two_digits (s : Z) :
  (0 <= s < 60)%Z ->
  padStart (toString s) 2 "0"
  = String (digit (s / 10)) (String (digit (s mod 10)) EmptyString).
Proof.
  intros Hs. rewrite <- (Z2Nat.id s) by lia. apply two_digits_nat. lia.
Qed.

(** X25: for a duration that is not negative [formatDuration] prints the
    whole minutes of the duration rounded down to a second, a colon, and
    the remaining seconds as exactly two decimal digits. *)
Theorem formatDuration_nonneg (seconds : Q) :
  0 <= seconds ->
  let total := Qfloor seconds in
  let m := (total / 60)%Z in
  let s := (total mod 60)%Z in
  formatDuration seconds
  = (toString m ++ ":"
     ++ String (digit (s / 10)) (String (digit (s mod 10)) EmptyString))%string.
Proof.
  intros Hs. cbn zeta. unfold formatDuration, Math_floor. cbn zeta.
  assert (Hq : 0 <= seconds / 60) by (apply Qle_shift_div_l; qlra).
  assert (Hm : Qfloor (seconds / 60) = (Qfloor seconds / 60)%Z).
  { pose proof (Qfloor_le seconds) as H1. pose proof (Qlt_floor seconds) as H2.
    rewrite inject_Z_plus in H2. change (inject_Z 1) with 1 in H2.
    pose proof (Z.div_mod (Qfloor seconds) 60 ltac:(lia)) as Hdm.
    pose proof (Z.mod_pos_bound (Qfloor seconds) 60 ltac:(lia)) as Hmod.
    set (t := Qfloor seconds) in *. set (k := (t / 60)%Z) in *.
    assert (Ht : inject_Z t == 60 * inject_Z k + inject_Z (t mod 60)).
    { rewrite Hdm at 1. rewrite inject_Z_plus, inject_Z_mult. reflexivity. }
    assert (Hr0 : 0 <= inject_Z (t mod 60)) by (rewrite <- (Zle_Qle 0); lia).
    assert (Hr1 : inject_Z (t mod 60) <= 59) by (rewrite <- (Zle_Qle _ 59); lia).
    apply Z.le_antisymm.
    - apply Qfloor_le_Z. rewrite inject_Z_plus. change (inject_Z 1) with 1.
      apply Qlt_shift_div_r; qlra.
    - apply Qfloor_ge_Z. apply Qle_shift_div_l; qlra. }
  unfold remainder. rewrite truncate_nonneg by exact Hq.
  rewrite Hm.
  assert (Hr : Qfloor (seconds - inject_Z (Qfloor seconds / 60) * 60)
               = (Qfloor seconds mod 60)%Z).
  { assert (E : seconds - inject_Z (Qfloor seconds / 60) * 60
                == seconds - inject_Z (Qfloor seconds / 60 * 60))
      by (rewrite inject_Z_mult; reflexivity).
    rewrite (Qfloor_comp _ _ E), Qfloor_sub_Z.
    pose proof (Z.div_mod (Qfloor seconds) 60 ltac:(lia)). lia. }
  rewrite Hr, two_digits by (apply Z.mod_pos_bound; lia). reflexivity.
Qed.


(** The theorem at 125.7 seconds: [2:05]. *)
Lemma formatDuration_nonneg_witness : formatDuration 125.7 = "2:05"%string.
Proof.
  rewrite (formatDuration_nonneg 125.7) by discriminate. reflexivity.
Defined.

End VideoUtilsFacts.

(* ================================================================== *)
(** * Properties of the choice of the video quality *)
(* ================================================================== *)

Module CameraFacts.

Import Camera.
Local Open Scope Z_scope.

(** X26: with known capabilities the preset chosen by [selectBestQuality]
    fits the device in width and height whenever a quality is preferred or
    the device supports 640 x 480; a preferred preset is only ever reduced,
    and its frame rate is at most 30. *)
Theorem selectBestQuality_fits (caps : CameraCapabilities)
    (preferred : option VideoUtils.VideoQuality) :
  is_Some preferred \/ (640 <= maxWidth caps /\ 480 <= maxHeight caps) ->
  let r := selectBestQuality (Some caps) preferred in
  width r <= maxWidth caps /\ height r <= maxHeight caps /\
  (forall q, preferred = Some q ->
     width r <= width (VIDEO_QUALITY_PRESETS q) /\
     height r <= height (VIDEO_QUALITY_PRESETS q) /\
     exists f, frameRate r = Some f /\ f <= 30).
Proof.
  intros H. cbn zeta. unfold selectBestQuality.
  destruct preferred as [q|].
  - cbn [width height frameRate]. split; [lia|]. split; [lia|].
    intros q' [= <-]. split; [lia|]. split; [lia|].
    eexists. split; [reflexivity|].
    destruct q; cbn; lia.
  - destruct H as [[q Hq]|[Hw Hh]]; [discriminate Hq|].
    split; [|split; [|intros q Hq; discriminate Hq]].
    + destruct (Z.leb_spec 1920 (maxWidth caps));
        destruct (Z.leb_spec 1080 (maxHeight caps));
        destruct (Z.leb_spec 1280 (maxWidth caps));
        destruct (Z.leb_spec 720 (maxHeight caps)); cbn; lia.
    + destruct (Z.leb_spec 1920 (maxWidth caps));
        destruct (Z.leb_spec 1080 (maxHeight caps));
        destruct (Z.leb_spec 1280 (maxWidth caps));
        destruct (Z.leb_spec 720 (maxHeight caps)); cbn; lia.
Qed.

(** The theorem at a device of 1024 x 768 and the high preset. *)
Lemma selectBestQuality_fits_witness :
  let r := selectBestQuality (Some (mkCapabilities 1024 768 [15; 60]))
             (Some VideoUtils.high) in
  width r <= 1024 /\ height r <= 768.
Proof.
  destruct (selectBestQuality_fits (mkCapabilities 1024 768 [15; 60])
              (Some VideoUtils.high)) as (H1 & H2 & _).
  - left. eexists. reflexivity.
  - split; assumption.
Defined.
End CameraFacts.
